(** * storm: a shallow embedding of the reflective mapping engine

    The development follows the two source files of the package:
    [storm.go] (Insert, Update, Delete) and [query_builder.go] (the Query
    facade, First, Select, Paginate and setFieldValue).  The parts of the
    Go runtime the package leans on ([strings], [fmt], [reflect], [math] and
    [database/sql]) are embedded first, each in a module of its own.

    Conventions.
    - A Go [string] is a sequence of bytes: [string] over [ascii].
    - Go's [int] is taken to be 64 bits wide (the gc toolchain on amd64 and
      arm64); integers are [Z] with the wrap-around written out.
    - [float64] and [float32] are [spec_float], the IEEE 754 specification the
      standard library gives for binary floating point, at precision 53 and 24.
    - A panic of the Go runtime is an outcome of its own, [Panic].
    - The database handle is an oracle answering the three calls the package
      makes; every operation returns the calls it made beside its result. *)

From Stdlib Require Import ZArith Lia Bool Ascii String List.
From Stdlib Require Import Numbers.DecimalString.
From Stdlib Require Import Floats.SpecFloat.
From stdpp Require Import base option list strings gmap.

Local Open Scope string_scope.
Local Open Scope list_scope.
Local Open Scope Z_scope.

(** ** The [strings] and [fmt] packages *)

Module GoStrings.

Definition tab : string := String (ascii_of_nat 9) "".
Definition newline : string := String (ascii_of_nat 10) "".

(** [strings.HasPrefix s prefix]. *)
Fixpoint HasPrefix (s prefix : string) : bool :=
  match prefix, s with
  | EmptyString, _ => true
  | String _ _, EmptyString => false
  | String p prefix', String c s' => Ascii.eqb p c && HasPrefix s' prefix'
  end.

(** [strings.Contains s substr]: [substr] occurs somewhere in [s]. *)
Fixpoint Contains (s substr : string) : bool :=
  HasPrefix s substr ||
  match s with
  | EmptyString => false
  | String _ s' => Contains s' substr
  end.

Definition lowerByte (c : ascii) : ascii :=
  let n := nat_of_ascii c in
  if (65 <=? n)%nat && (n <=? 90)%nat then ascii_of_nat (n + 32) else c.

(** [strings.ToLower] on a string of ASCII bytes, where it lowers [A]-[Z]
    byte by byte.  On other strings [strings.ToLower] maps runes through the
    Unicode tables, which are not embedded: there this function keeps the
    bytes at or above 0x80 and gives the table and default column names only
    up to the case of their non-ASCII letters. *)
Fixpoint ToLower (s : string) : string :=
  match s with
  | EmptyString => EmptyString
  | String c s' => String (lowerByte c) (ToLower s')
  end.

(** [strings.Join elems sep]. *)
Fixpoint Join (elems : list string) (sep : string) : string :=
  match elems with
  | [] => ""
  | [e] => e
  | e :: rest => e +:+ sep +:+ Join rest sep
  end.

(** The scan behind [strings.Split s sep] for a non-empty [sep]: [skip]
    counts the bytes of a separator still to be passed over, [cur] is the
    piece being collected. *)
Fixpoint splitScan (sep : string) (s : string) (skip : nat) (cur : string)
  : list string :=
  match s with
  | EmptyString => [cur]
  | String c s' =>
      match skip with
      | S k => splitScan sep s' k cur
      | O =>
          if HasPrefix s sep
          then cur :: splitScan sep s' (String.length sep - 1) ""
          else splitScan sep s' O (cur +:+ String c "")
      end
  end.

Fixpoint explode (s : string) : list string :=
  match s with
  | EmptyString => []
  | String c s' => String c "" :: explode s'
  end.

(** [strings.Split s sep]; the package only ever splits on [":"]. *)
Definition Split (s sep : string) : list string :=
  match sep with
  | EmptyString => explode s
  | _ => splitScan sep s O ""
  end.

(** [fmt.Sprintf("%d", n)]. *)
Definition itoa (n : Z) : string := NilZero.string_of_int (Z.to_int n).

End GoStrings.

(** ** Outcomes: a value, or a panic of the Go runtime *)

Inductive Res (A : Type) : Type :=
| Ret (a : A)
| Panic (msg : string).
Arguments Ret {A} a.
Arguments Panic {A} msg.

#[global] Instance Res_bind : MBind Res := fun A B f r =>
  match r with
  | Ret a => f a
  | Panic msg => Panic msg
  end.

#[global] Instance Res_ret : MRet Res := fun A a => Ret a.

(** A Go [error]: [None] is [nil], [Some msg] an error printing as [msg]. *)
Definition error : Type := option string.

(** [s[i]] on a slice: the runtime panics when [i] is out of range. *)
Definition index {A : Type} (s : list A) (i : nat) : Res A :=
  match s !! i with
  | Some x => Ret x
  | None => Panic "runtime error: index out of range"
  end.

(** ** Machine integers and IEEE 754 numbers *)

Module GoNum.

(** Two's complement wrap-around of [z] to [w] bits, signed and unsigned. *)
Definition wrapS (w : Z) (z : Z) : Z := (z + 2 ^ (w - 1)) mod 2 ^ w - 2 ^ (w - 1).
Definition wrapU (w : Z) (z : Z) : Z := z mod 2 ^ w.

(** Arithmetic on [int]. *)
Definition intSub (a b : Z) : Z := wrapS 64 (a - b).
Definition intMul (a b : Z) : Z := wrapS 64 (a * b).

Definition minInt64 : Z := - 2 ^ 63.

(** [float64(z)] for an integer [z]: round to nearest, ties to even. *)
Definition float64_of_int (z : Z) : spec_float := binary_normalize 53 1024 z 0 false.

(** [x / y] on [float64]. *)
Definition float64_div (x y : spec_float) : spec_float := SFdiv 53 1024 x y.

(** [float32(x)] for a [float64]. *)
Definition float32_of_float64 (x : spec_float) : spec_float :=
  match x with
  | S754_finite s m e => binary_round 24 128 s m e
  | _ => x
  end.

(** The integer part of a finite number, rounding toward zero. *)
Definition truncate (x : spec_float) : option Z :=
  match x with
  | S754_zero _ => Some 0
  | S754_finite s m e =>
      Some (cond_Zopp s (if 0 <=? e then Z.pos m * 2 ^ e else Z.pos m / 2 ^ (- e)))
  | _ => None
  end.

(** [int64(x)] for a [float64].  Go leaves the result open when [x] is not
    representable; amd64's CVTTSD2SQ then gives the smallest [int64]. *)
Definition int64_of_float64 (x : spec_float) : Z :=
  match truncate x with
  | Some t => if (minInt64 <=? t) && (t <? 2 ^ 63) then t else minInt64
  | None => minInt64
  end.

(** [uint64(x)] for a [float64], as the gc toolchain compiles it on amd64:
    below 2^63 through [int64], above by subtracting 2^63 first. *)
Definition uint64_of_float64 (x : spec_float) : Z :=
  match truncate x with
  | Some t =>
      if t <? 2 ^ 63 then wrapU 64 (int64_of_float64 x)
      else if t <? 2 ^ 64 then t
      else 2 ^ 63
  | None => 2 ^ 63
  end.

(** [math.Ceil]: zeros, infinities and NaN are returned as they are; a
    number without fractional bits is its own ceiling; a negative number
    above -1 gives the negative zero. *)
Definition Ceil (x : spec_float) : spec_float :=
  match x with
  | S754_finite s m e =>
      if 0 <=? e then x
      else binary_normalize 53 1024 (- ((- cond_Zopp s (Z.pos m)) / 2 ^ (- e))) 0 s
  | _ => x
  end.

Definition isZeroFloat (x : spec_float) : bool :=
  match x with
  | S754_zero _ => true
  | _ => false
  end.

End GoNum.

(** ** The [reflect] view of record types and their values *)

Module Reflect.

Inductive IntSize := SzNative | Sz8 | Sz16 | Sz32 | Sz64.

Definition bits (sz : IntSize) : Z :=
  match sz with
  | SzNative => 64
  | Sz8 => 8
  | Sz16 => 16
  | Sz32 => 32
  | Sz64 => 64
  end.

(** The field types the model covers: the predeclared scalar types and
    [[]byte].  Each is its own kind: [TInt sz] stands for reflect.Int,
    Int8, ..., [TUint sz] for reflect.Uint, Uint8, ..., [TBytes] has kind
    Slice. *)
Inductive GoType :=
| TBool
| TInt (sz : IntSize)
| TUint (sz : IntSize)
| TFloat32
| TFloat64
| TString
| TBytes.

(** A value together with its dynamic type.  A [[]byte] is [None] when it
    is the nil slice. *)
Inductive Value :=
| VBool (b : bool)
| VInt (sz : IntSize) (z : Z)
| VUint (sz : IntSize) (z : Z)
| VFloat32 (x : spec_float)
| VFloat64 (x : spec_float)
| VString (s : string)
| VBytes (b : option string).

(** An [interface{}]: [None] is the nil interface. *)
Definition iface : Type := option Value.

Definition TypeOf (v : Value) : GoType :=
  match v with
  | VBool _ => TBool
  | VInt sz _ => TInt sz
  | VUint sz _ => TUint sz
  | VFloat32 _ => TFloat32
  | VFloat64 _ => TFloat64
  | VString _ => TString
  | VBytes _ => TBytes
  end.

Definition sizeSuffix (sz : IntSize) : string :=
  match sz with
  | SzNative => ""
  | Sz8 => "8"
  | Sz16 => "16"
  | Sz32 => "32"
  | Sz64 => "64"
  end.

(** What [%v] prints for a [reflect.Type] and [%T] for a value of it. *)
Definition typeString (t : GoType) : string :=
  match t with
  | TBool => "bool"
  | TInt sz => "int" +:+ sizeSuffix sz
  | TUint sz => "uint" +:+ sizeSuffix sz
  | TFloat32 => "float32"
  | TFloat64 => "float64"
  | TString => "string"
  | TBytes => "[]uint8"
  end.

#[global] Instance IntSize_eq_dec : EqDecision IntSize.
Proof. solve_decision. Defined.

#[global] Instance GoType_eq_dec : EqDecision GoType.
Proof. solve_decision. Defined.

(** [T.AssignableTo(U)]: none of the modelled types is an interface or a
    named type, so only identical types are assignable. *)
Definition AssignableTo (t u : GoType) : bool := bool_decide (t = u).

Definition zeroValue (t : GoType) : Value :=
  match t with
  | TBool => VBool false
  | TInt sz => VInt sz 0
  | TUint sz => VUint sz 0
  | TFloat32 => VFloat32 (S754_zero false)
  | TFloat64 => VFloat64 (S754_zero false)
  | TString => VString ""
  | TBytes => VBytes None
  end.

(** [Value.IsZero] (for floats both zeros count, as since Go 1.22). *)
Definition IsZero (v : Value) : bool :=
  match v with
  | VBool b => negb b
  | VInt _ z => z =? 0
  | VUint _ z => z =? 0
  | VFloat32 x => GoNum.isZeroFloat x
  | VFloat64 x => GoNum.isZeroFloat x
  | VString s => String.eqb s ""
  | VBytes b => match b with None => true | Some _ => false end
  end.

(** A field of a struct value: the [reflect.StructField] (name and the
    value of the [storm] key of its tag, [None] when the tag has no such
    key) with the field's current value; the field's type is the dynamic
    type of the value. *)
Record Field := mkField {
  Name : string;
  Tag : option string;
  Val : Value
}.

(** A struct value with its type name; [Fields] in declaration order. *)
Record Struct := mkStruct {
  TypeName : string;
  Fields : list Field
}.

(** A struct type: the fields with name, tag and type. *)
Record StructType := mkStructType {
  TName : string;
  TFields : list (string * option string * GoType)
}.

(** [reflect.New(tipe).Elem()]: the zero value of a struct type. *)
Definition New (tipe : StructType) : Struct :=
  {| TypeName := TName tipe;
     Fields := map (fun '(n, tg, t) => mkField n tg (zeroValue t)) (TFields tipe) |}.

(** [field.Tag.Get("storm")]. *)
Definition TagGet (f : Field) : string := default "" (Tag f).

(** A field is exported when its name starts with an upper-case letter.
    The test here is on the first byte, [A]-[Z]: it is Go's test on every
    name whose first byte is ASCII ([asciiInitial]).  A name that starts
    with a non-ASCII upper-case letter is exported in Go and not here, so
    [IsExported name = true] says that the field is exported for every name,
    and [IsExported name = false] says that it is not only beside
    [asciiInitial name = true]. *)
Definition IsExported (name : string) : bool :=
  match name with
  | EmptyString => false
  | String c _ => let n := nat_of_ascii c in (65 <=? n)%nat && (n <=? 90)%nat
  end.

(** The name starts with an ASCII byte. *)
Definition asciiInitial (name : string) : bool :=
  match name with
  | EmptyString => false
  | String c _ => (nat_of_ascii c <? 128)%nat
  end.

(** [Value.CanSet] for a field reached through a pointer to its struct. *)
Definition CanSet (f : Field) : bool := IsExported (Name f).

(** [Value.Interface]: panics on a value obtained from an unexported field. *)
Definition Interface (f : Field) : Res iface :=
  if IsExported (Name f) then Ret (Some (Val f))
  else Panic "reflect.Value.Interface: cannot return value obtained from unexported field or method".

Definition mustBeAssignable (f : Field) : Res unit :=
  if CanSet f then Ret tt
  else Panic "reflect: reflect.Value.Set using value obtained using unexported field".

Definition withVal (f : Field) (v : Value) : Field :=
  {| Name := Name f; Tag := Tag f; Val := v |}.

(** [Value.Set]: the caller has checked assignability of the types. *)
Definition Set_ (f : Field) (v : Value) : Res Field :=
  _ ← mustBeAssignable f; Ret (withVal f v).

(** [Value.SetInt x]: stores [x] converted to the field's width; panics when
    the field is not settable or not of a signed integer kind. *)
Definition SetInt (f : Field) (x : Z) : Res Field :=
  _ ← mustBeAssignable f;
  match TypeOf (Val f) with
  | TInt sz => Ret (withVal f (VInt sz (GoNum.wrapS (bits sz) x)))
  | _ => Panic "reflect: call of reflect.Value.SetInt on non-int Value"
  end.

(** [Value.SetUint x], likewise for the unsigned kinds. *)
Definition SetUint (f : Field) (x : Z) : Res Field :=
  _ ← mustBeAssignable f;
  match TypeOf (Val f) with
  | TUint sz => Ret (withVal f (VUint sz (GoNum.wrapU (bits sz) x)))
  | _ => Panic "reflect: call of reflect.Value.SetUint on non-uint Value"
  end.

(** [Value.SetFloat x]: a [float32] field stores [float32(x)]. *)
Definition SetFloat (f : Field) (x : spec_float) : Res Field :=
  _ ← mustBeAssignable f;
  match TypeOf (Val f) with
  | TFloat32 => Ret (withVal f (VFloat32 (GoNum.float32_of_float64 x)))
  | TFloat64 => Ret (withVal f (VFloat64 x))
  | _ => Panic "reflect: call of reflect.Value.SetFloat on non-float Value"
  end.

Definition SetString (f : Field) (x : string) : Res Field :=
  _ ← mustBeAssignable f;
  match TypeOf (Val f) with
  | TString => Ret (withVal f (VString x))
  | _ => Panic "reflect: call of reflect.Value.SetString on non-string Value"
  end.

Definition SetBool (f : Field) (x : bool) : Res Field :=
  _ ← mustBeAssignable f;
  match TypeOf (Val f) with
  | TBool => Ret (withVal f (VBool x))
  | _ => Panic "reflect: call of reflect.Value.SetBool on non-bool Value"
  end.

(** [v.FieldByName(name)]: the position of the field of that name, if any. *)
Fixpoint FieldByName (fields : list Field) (name : string) : option nat :=
  match fields with
  | [] => None
  | f :: rest =>
      if String.eqb (Name f) name then Some O
      else S <$> FieldByName rest name
  end.

End Reflect.

(** ** The [database/sql] handle *)

Module Sql.
Import Reflect.

(** The calls the package makes on [*sql.DB]. *)
Inductive Call :=
| CallExec (query : string) (args : list iface)
| CallQuery (query : string) (args : list iface)
| CallQueryRow (query : string).

(** One row of a result set: what [rows.Scan] into [*interface{}] targets
    stores, or the error it returns. *)
Inductive Row :=
| RowValues (vals : list iface)
| RowScanError (e : string).

Record Rows := mkRows {
  Columns : list string;
  Data : list Row
}.

Inductive QueryResult :=
| QueryError (e : string)
| QueryRows (rows : Rows).

(** A failing [db.QueryRow(q).Scan(total)]: the error it returns and what
    it did to [*total].  [Row.Scan] ends in [return r.rows.Close()], after
    the value was stored, so a call can fail with the count already written:
    [stored] is that count, [None] when [*total] was not touched. *)
Record ScanFailure := mkScanFailure {
  failure : string;
  stored : option Z
}.

(** [db.QueryRow(q).Scan(total)] with [total] an [*int]. *)
Inductive ScanInt :=
| ScanIntError (e : ScanFailure)
| ScanIntOk (n : Z).

(** The database as the package sees it: an answer to each call. *)
Record DB := mkDB {
  dbExec : string -> list iface -> error;
  dbQuery : string -> list iface -> QueryResult;
  dbQueryRow : string -> ScanInt
}.

(** [rows.Scan(ptrs...)] with [ptrs[i] = &vals[i]] for the [n] columns. *)
Definition Scan (n : nat) (r : Row) : string + list iface :=
  match r with
  | RowValues vals => inr (resize n None vals)
  | RowScanError e => inl e
  end.

End Sql.

(** ** storm.go *)

Module Storm.
Import GoStrings Reflect Sql.

(** The body of the [for] loop of [Insert], from field [i] on. *)
Fixpoint insertLoop (fields : list Field) (i : Z)
    (columns placeholders : list string) (values : list iface)
  : Res (list string * list string * list iface) :=
  match fields with
  | [] => Ret (columns, placeholders, values)
  | field :: rest =>
      let tag := TagGet field in
      let is_primary := Contains tag "pk" in
      let is_column := Contains tag "column" in
      if is_primary then insertLoop rest (i + 1) columns placeholders values
      else
        col ← (if is_column then index (Split tag ":") 1
               else Ret (ToLower (Name field)));
        let placeHolderVal := "$" +:+ itoa i in
        v ← Interface field;
        insertLoop rest (i + 1)
          (columns ++ [col]) (placeholders ++ [placeHolderVal]) (values ++ [v])
  end.

Definition insertStatement (tipeName : string) (columns placeholders : list string)
  : string :=
  "INSERT INTO " +:+ ToLower (tipeName +:+ "s") +:+ " (" +:+ Join columns ", "
    +:+ ") VALUES (" +:+ Join placeholders ", " +:+ ")".

Definition Insert (db : DB) (model : Struct) : list Call * Res error :=
  match insertLoop (Fields model) 0 [] [] [] with
  | Panic msg => ([], Panic msg)
  | Ret (columns, placeholders, values) =>
      let q := insertStatement (TypeName model) columns placeholders in
      ([CallExec q values], Ret (dbExec db q values))
  end.

(** The variables [Update] carries through its loop. *)
Record updateVars := mkUpdateVars {
  u_paramCount : Z;
  u_setClause : list string;
  u_vals : list iface;
  u_pkField : string;
  u_pkValue : iface
}.

Fixpoint updateLoop (fields : list Field) (i : Z) (st : updateVars) : Res updateVars :=
  match fields with
  | [] => Ret st
  | field :: rest =>
      let tag := TagGet field in
      let is_primary := Contains tag "pk" in
      let is_column := Contains tag "column" in
      if is_primary then
        v ← Interface field;
        updateLoop rest (i + 1)
          (mkUpdateVars (u_paramCount st) (u_setClause st) (u_vals st) (Name field) v)
      else
        col ← (if is_column then index (Split tag ":") 1
               else Ret (ToLower (Name field)));
        if negb (IsZero (Val field)) then
          v ← Interface field;
          updateLoop rest (i + 1)
            (mkUpdateVars (u_paramCount st + 1)
               (u_setClause st ++ [col +:+ " = $" +:+ itoa i])
               (u_vals st ++ [v]) (u_pkField st) (u_pkValue st))
        else updateLoop rest (i + 1) st
  end.

Definition updateStatement (tipeName : string) (setClause : list string)
    (pkField : string) (paramCount : Z) : string :=
  newline +:+ tab +:+ tab +:+ "UPDATE " +:+ ToLower (tipeName +:+ "s") +:+ " SET "
    +:+ Join setClause ", " +:+ " WHERE " +:+ pkField +:+ " = $" +:+ itoa paramCount
    +:+ newline +:+ tab.

Definition Update (db : DB) (model : Struct) : list Call * Res error :=
  match updateLoop (Fields model) 0 (mkUpdateVars 1 [] [] "" None) with
  | Panic msg => ([], Panic msg)
  | Ret st =>
      if String.eqb (u_pkField st) "" then
        ([], Ret (Some "no primary key is found for update"))
      else
        let vals := u_vals st ++ [u_pkValue st] in
        let q := updateStatement (TypeName model) (u_setClause st)
                   (u_pkField st) (u_paramCount st) in
        ([CallExec q vals], Ret (dbExec db q vals))
  end.

(** [Delete]'s loop carries [pkField], [pkValue] and [paramCount]. *)
Fixpoint deleteLoop (fields : list Field) (pkField : string) (pkValue : iface)
    (paramCount : Z) : Res (string * iface * Z) :=
  match fields with
  | [] => Ret (pkField, pkValue, paramCount)
  | field :: rest =>
      let tag := TagGet field in
      let col := Name field in
      let is_primary := Contains tag "pk" in
      if is_primary then
        v ← Interface field;
        deleteLoop rest col v (paramCount + 1)
      else deleteLoop rest pkField pkValue paramCount
  end.

Definition deleteStatement (tipeName pkField : string) (paramCount : Z) : string :=
  newline +:+ tab +:+ "DELETE FROM " +:+ ToLower (tipeName +:+ "s") +:+ " WHERE "
    +:+ pkField +:+ " = $" +:+ itoa paramCount +:+ newline +:+ tab.

Definition Delete (db : DB) (model : Struct) : list Call * Res error :=
  match deleteLoop (Fields model) "" None 0 with
  | Panic msg => ([], Panic msg)
  | Ret (pkField, pkValue, paramCount) =>
      let vals := [pkValue] in
      let q := deleteStatement (TypeName model) pkField paramCount in
      ([CallExec q vals], Ret (dbExec db q vals))
  end.

End Storm.

(** ** query_builder.go *)

Module QueryBuilder.
Import GoStrings GoNum Reflect Sql.

Record Query := mkQuery {
  storm : DB;
  table : string;
  where_ : string;
  whereArgument : list iface;
  limit : Z
}.

(** [s.From(model)]. *)
Definition From (s : DB) (model : Struct) : Query :=
  {| storm := s; table := ToLower (TypeName model +:+ "s");
     where_ := ""; whereArgument := []; limit := 0 |}.

Definition Where (q : Query) (condition : string) (args : list iface) : Query :=
  {| storm := storm q; table := table q;
     where_ := condition; whereArgument := args; limit := limit q |}.

Definition Limit (q : Query) (n : Z) : Query :=
  {| storm := storm q; table := table q;
     where_ := where_ q; whereArgument := whereArgument q; limit := n |}.

Definition cannotConvert (value : Value) (target : string) : error :=
  Some ("cannot convert " +:+ typeString (TypeOf value) +:+ " to " +:+ target).

(** [setFieldValue field value]: the field as the call leaves it, and the
    error returned. *)
Definition setFieldValue (field : Field) (value : iface) : Res (Field * error) :=
  match value with
  | None => Ret (field, None)
  | Some val =>
      let fieldType := TypeOf (Val field) in
      if AssignableTo (TypeOf val) fieldType then
        field' ← Set_ field val; Ret (field', None)
      else
        match fieldType with
        | TInt _ =>
            match val with
            | VInt Sz64 v => field' ← SetInt field v; Ret (field', None)
            | VInt Sz32 v => field' ← SetInt field v; Ret (field', None)
            | VInt SzNative v => field' ← SetInt field v; Ret (field', None)
            | VFloat64 v => field' ← SetInt field (int64_of_float64 v); Ret (field', None)
            | _ => Ret (field, cannotConvert val (typeString fieldType))
            end
        | TUint _ =>
            match val with
            | VInt Sz64 v => field' ← SetUint field (wrapU 64 v); Ret (field', None)
            | VInt Sz32 v => field' ← SetUint field (wrapU 64 v); Ret (field', None)
            | VInt SzNative v => field' ← SetUint field (wrapU 64 v); Ret (field', None)
            | VFloat64 v => field' ← SetUint field (uint64_of_float64 v); Ret (field', None)
            | _ => Ret (field, cannotConvert val (typeString fieldType))
            end
        | TFloat32 | TFloat64 =>
            match val with
            | VFloat64 v => field' ← SetFloat field v; Ret (field', None)
            | VInt Sz64 v => field' ← SetFloat field (float64_of_int v); Ret (field', None)
            | VInt SzNative v => field' ← SetFloat field (float64_of_int v); Ret (field', None)
            | _ => Ret (field, cannotConvert val (typeString fieldType))
            end
        | TString =>
            match val with
            | VString v => field' ← SetString field v; Ret (field', None)
            | VBytes v => field' ← SetString field (default "" v); Ret (field', None)
            | _ => Ret (field, cannotConvert val "string")
            end
        | TBool =>
            match val with
            | VBool v => field' ← SetBool field v; Ret (field', None)
            | VInt Sz64 v => field' ← SetBool field (negb (v =? 0)); Ret (field', None)
            | _ => Ret (field, cannotConvert val "bool")
            end
        | _ => Ret (field, Some ("unsupported field type: " +:+ typeString fieldType))
        end
  end.

(** The statement [First] and [Select] start from. *)
Definition selectFrom (queryCol : list string) (table : string) : string :=
  let isQueryColExist := (0 <? length queryCol)%nat in
  let selectedCols := if isQueryColExist then Join queryCol "," else "*" in
  "SELECT " +:+ selectedCols +:+ " FROM " +:+ table.

(** The [if q.where != ""] step of [First] and [Select]. *)
Definition addWhere (q : Query) (query : string) : string * list iface :=
  if negb (String.eqb (where_ q) "") then
    (query +:+ " WHERE " +:+ where_ q, whereArgument q)
  else (query, []).

(** [First]'s [for rows.Next()] loop: every row is scanned into the same
    [vals]. *)
Fixpoint firstScan (n : nat) (rows : list Row) (vals : list iface)
  : string + list iface :=
  match rows with
  | [] => inr vals
  | r :: rest =>
      match Scan n r with
      | inl e => inl e
      | inr vals' => firstScan n rest vals'
      end
  end.

(** The column map [ht] as [First] builds it. *)
Fixpoint firstColumns (fields : list Field) (ht : gmap string string)
  : gmap string string :=
  match fields with
  | [] => ht
  | field :: rest =>
      let structFieldName := ToLower (Name field) in
      let structFieldName :=
        match Tag field with
        | Some val =>
            match Split val ":" with
            | [_; name] => name
            | _ => structFieldName
            end
        | None => structFieldName
        end in
      firstColumns rest (<[structFieldName := Name field]> ht)
  end.

(** [First]'s [for i, col := range columnNames] loop, from column [i] on. *)
Fixpoint firstAssign (ht : gmap string string) (columnNames : list string)
    (i : nat) (vals : list iface) (dest : list Field)
  : Res (list Field * error) :=
  match columnNames with
  | [] => Ret (dest, None)
  | col :: rest =>
      match ht !! col with
      | None => firstAssign ht rest (S i) vals dest
      | Some structFieldName =>
          match FieldByName dest structFieldName with
          | None => firstAssign ht rest (S i) vals dest
          | Some k =>
              field ← index dest k;
              v ← index vals i;
              '(field', err) ← setFieldValue field v;
              let dest' := <[k := field']> dest in
              match err with
              | Some e => Ret (dest', Some e)
              | None => firstAssign ht rest (S i) vals dest'
              end
          end
      end
  end.

(** The statement [First] sends, with its arguments. *)
Definition firstQuery (q : Query) (queryCol : list string) : string * list iface :=
  let table := table q in
  let query := selectFrom queryCol table in
  let '(query, args) := addWhere q query in
  (query +:+ " LIMIT " +:+ itoa 1, args).

Definition First (q : Query) (dest : Struct) (queryCol : list string)
  : list Call * Res (Struct * error) :=
  let '(query, args) := firstQuery q queryCol in
  match dbQuery (storm q) query args with
  | QueryError err => ([CallQuery query args], Ret (dest, Some err))
  | QueryRows rows =>
      let columnNames := Columns rows in
      let n := length columnNames in
      match firstScan n (Data rows) (replicate n None) with
      | inl err => ([CallQuery query args], Ret (dest, Some err))
      | inr vals =>
          let ht := firstColumns (Fields dest) ∅ in
          ([CallQuery query args],
           '(fields, err) ← firstAssign ht columnNames O vals (Fields dest);
           Ret (mkStruct (TypeName dest) fields, err))
      end
  end.

(** The column map [ht] as [Select] and [Paginate] build it for each row. *)
Fixpoint selectColumns (fields : list Field) (ht : gmap string string)
  : gmap string string :=
  match fields with
  | [] => ht
  | field :: rest =>
      let col := ToLower (Name field) in
      let col :=
        match Tag field with
        | Some tag =>
            match Split tag ":" with
            | [p0; p1] => if String.eqb p0 "column" then p1 else col
            | _ => col
            end
        | None => col
        end in
      selectColumns rest (<[col := Name field]> ht)
  end.

(** The [for i, col := range cols] loop of [Select] and [Paginate]. *)
Fixpoint selectAssign (ht : gmap string string) (cols : list string)
    (i : nat) (vals : list iface) (newStruct : list Field)
  : Res (list Field * error) :=
  match cols with
  | [] => Ret (newStruct, None)
  | col :: rest =>
      match ht !! col with
      | None => selectAssign ht rest (S i) vals newStruct
      | Some structFieldName =>
          match FieldByName newStruct structFieldName with
          | None => selectAssign ht rest (S i) vals newStruct
          | Some k =>
              field ← index newStruct k;
              v ← index vals i;
              '(field', err) ← setFieldValue field v;
              let newStruct' := <[k := field']> newStruct in
              match err with
              | Some e =>
                  Ret (newStruct',
                       Some ("error setting field " +:+ structFieldName +:+ ": " +:+ e))
              | None => selectAssign ht rest (S i) vals newStruct'
              end
          end
      end
  end.

(** The [for rows.Next()] loop that [Select] and [Paginate] both contain:
    each row is scanned, mapped into a fresh struct and appended to the
    destination slice. *)
Fixpoint selectRows (tipe : StructType) (cols : list string) (rows : list Row)
    (sliceVal : list Struct) : Res (list Struct * error) :=
  match rows with
  | [] => Ret (sliceVal, None)
  | r :: rest =>
      match Scan (length cols) r with
      | inl err => Ret (sliceVal, Some err)
      | inr vals =>
          let newStruct := New tipe in
          let ht := selectColumns (Fields newStruct) ∅ in
          '(fields, err) ← selectAssign ht cols O vals (Fields newStruct);
          match err with
          | Some e => Ret (sliceVal, Some e)
          | None =>
              selectRows tipe cols rest
                (sliceVal ++ [mkStruct (TypeName newStruct) fields])
          end
      end
  end.

(** The statement [Select] sends, with its arguments. *)
Definition selectQuery (q : Query) (queryCol : list string) : string * list iface :=
  let table := table q in
  let query := selectFrom queryCol table in
  let '(query, args) := addWhere q query in
  (if 0 <? limit q then query +:+ " LIMIT " +:+ itoa (limit q) else query, args).

Definition Select (q : Query) (tipe : StructType) (dest : list Struct)
    (queryCol : list string) : list Call * Res (list Struct * error) :=
  let '(query, args) := selectQuery q queryCol in
  match dbQuery (storm q) query args with
  | QueryError err => ([CallQuery query args], Ret (dest, Some err))
  | QueryRows rows =>
      ([CallQuery query args], selectRows tipe (Columns rows) (Data rows) dest)
  end.

(** What [Paginate] leaves behind: the destination slice, [*total],
    [*totalPages] and the error returned. *)
Record Page := mkPage {
  p_dest : list Struct;
  p_total : Z;
  p_totalPages : Z;
  p_err : error
}.

Definition countStatement (table : string) : string :=
  "SELECT COUNT(*) FROM " +:+ table.

Definition pageStatement (queryCol : list string) (table : string) : string :=
  let isQueryColExist := (0 <? length queryCol)%nat in
  let selectedCols := if isQueryColExist then Join queryCol "," else "*" in
  "SELECT " +:+ selectedCols +:+ " FROM " +:+ table +:+ " ORDER BY id LIMIT $1 OFFSET $2".

(** [int(math.Ceil(float64(total) / float64(pageSize)))]. *)
Definition pageCount (total pageSize : Z) : Z :=
  int64_of_float64 (Ceil (float64_div (float64_of_int total) (float64_of_int pageSize))).

Definition Paginate (q : Query) (tipe : StructType) (dest : list Struct)
    (page pageSize : Z) (total totalPages : Z) (queryCol : list string)
  : list Call * Res Page :=
  let page := if page <? 1 then 1 else page in
  let pageSize := if pageSize <=? 0 then 1 else pageSize in
  let countQuery := countStatement (table q) in
  match dbQueryRow (storm q) countQuery with
  | ScanIntError err =>
      ([CallQueryRow countQuery],
       Ret (mkPage dest (default total (stored err)) totalPages (Some (failure err))))
  | ScanIntOk total =>
      let totalPages := pageCount total pageSize in
      let offset := intMul (intSub page 1) pageSize in
      let query := pageStatement queryCol (table q) in
      let args := [Some (VInt SzNative pageSize); Some (VInt SzNative offset)] in
      match dbQuery (storm q) query args with
      | QueryError err =>
          ([CallQueryRow countQuery; CallQuery query args],
           Ret (mkPage dest total totalPages (Some err)))
      | QueryRows rows =>
          ([CallQueryRow countQuery; CallQuery query args],
           '(dest', err) ← selectRows tipe (Columns rows) (Data rows) dest;
           Ret (mkPage dest' total totalPages err))
      end
  end.

End QueryBuilder.

(** ** Vocabulary of the specification *)

Module Spec.
Import GoStrings GoNum Reflect Sql QueryBuilder.

(** The test [Insert], [Update] and [Delete] apply to a field
    ([strings.Contains(tag, "pk")]): the bytes [pk] occur somewhere in its
    [storm] tag.  A field tagged [column:pkg] passes it. *)
Definition isPrimary (f : Field) : bool := Contains (TagGet f) "pk".

(** The specification's reading of a tag: a set of directives separated by
    commas, [pk] and [column:<name>] being the recognized ones. *)
Definition directives (f : Field) : list string := Split (TagGet f) ",".

(** A primary-key field in the sense of the specification: [pk] is one of
    the directives of its tag. *)
Definition pkDirective (f : Field) : bool := existsb (String.eqb "pk") (directives f).

(** The fields without the [pk] directive, in declaration order, each with
    its position in the struct, counting from [i]. *)
Fixpoint nonKeyDeclared (fields : list Field) (i : Z) : list (Z * Field) :=
  match fields with
  | [] => []
  | f :: rest =>
      if pkDirective f then nonKeyDeclared rest (i + 1)
      else (i, f) :: nonKeyDeclared rest (i + 1)
  end.

(** Those of them that hold a non-zero value. *)
Definition nonZeroDeclared (fields : list Field) (i : Z) : list (Z * Field) :=
  List.filter (fun p => negb (IsZero (Val p.2))) (nonKeyDeclared fields i).

(** The tag of a field is absent, or is [column:<name>] with a name free
    of [:]. *)
Definition plainColumn (f : Field) : Prop :=
  Tag f = None \/ exists x, Tag f = Some ("column:" +:+ x) /\ Contains x ":" = false.

(** The non-key fields in declaration order, each with its position in
    the struct, counting from [i]. *)
Fixpoint nonKeyFields (fields : list Field) (i : Z) : list (Z * Field) :=
  match fields with
  | [] => []
  | f :: rest =>
      if isPrimary f then nonKeyFields rest (i + 1)
      else (i, f) :: nonKeyFields rest (i + 1)
  end.

(** The column a non-key field is written to. *)
Definition columnName (f : Field) : string :=
  if Contains (TagGet f) "column" then default "" (Split (TagGet f) ":" !! 1%nat)
  else ToLower (Name f).

(** A tag that contains [column] also contains a [:]. *)
Definition columnTagOk (f : Field) : bool :=
  negb (Contains (TagGet f) "column") || Contains (TagGet f) ":".

(** The non-key fields that [Update] writes: those whose value is not the
    zero value of its type. *)
Definition nonZeroFields (fields : list Field) (i : Z) : list (Z * Field) :=
  List.filter (fun p => negb (IsZero (Val p.2))) (nonKeyFields fields i).

(** What [Insert] sends for the non-key fields [nk]. *)
Definition insertColumns (nk : list (Z * Field)) : list string :=
  map (fun p => columnName p.2) nk.
Definition insertPlaceholders (nk : list (Z * Field)) : list string :=
  map (fun p => "$" +:+ itoa p.1) nk.
Definition fieldValues (nk : list (Z * Field)) : list iface :=
  map (fun p => Some (Val p.2)) nk.

(** The [SET] fragments of [Update] for the fields [nz]. *)
Definition setFragments (nz : list (Z * Field)) : list string :=
  map (fun p => columnName p.2 +:+ " = $" +:+ itoa p.1) nz.

(** The primary key [Update] ends its loop with: the last field tagged
    [pk], or what the variables held before when there is none. *)
Definition finalKey (fields : list Field) (pkField : string) (pkValue : iface)
  : string * iface :=
  match last (List.filter isPrimary fields) with
  | Some pk => (Name pk, Some (Val pk))
  | None => (pkField, pkValue)
  end.

(** Coercion of the value [v] of column [col] fails with [cause], the
    struct being populated standing at [s]: the column is mapped to the field
    [fname], found at position [k], and [setFieldValue] returns the error
    [cause], leaving the field as [field']. *)
Definition coercionFails (ht : gmap string string) (s : list Field) (col : string)
    (v : option iface) (fname : string) (k : nat) (field' : Field) (cause : string)
  : Prop :=
  ht !! col = Some fname /\ FieldByName s fname = Some k /\
  exists field value,
    s !! k = Some field /\ v = Some value /\
    setFieldValue field value = Ret (field', Some cause).

(** Mapping the row [vals] into a fresh struct of type [tipe], as [Select]
    and [Paginate] do, goes without error through the columns [pre] and
    fails at the next column, mapped to field [fname], with [cause]. *)
Definition rowFails (tipe : StructType) (cols : list string) (vals : list iface)
    (fname cause : string) : Prop :=
  let ht := selectColumns (Fields (New tipe)) ∅ in
  exists pre col post s k field',
    cols = pre ++ col :: post /\
    selectAssign ht pre O vals (Fields (New tipe)) = Ret (s, None) /\
    coercionFails ht s col (vals !! length pre) fname k field' cause.

(** The same for [First], which maps into the destination [dest] itself;
    [dest'] is the destination as the failure leaves it. *)
Definition firstFails (dest : list Field) (cols : list string) (vals : list iface)
    (dest' : list Field) : Prop :=
  let ht := firstColumns dest ∅ in
  exists pre col post s fname k field' cause,
    cols = pre ++ col :: post /\
    firstAssign ht pre O vals dest = Ret (s, None) /\
    coercionFails ht s col (vals !! length pre) fname k field' cause /\
    dest' = <[k := field']> s.

(** The value of a finite binary number as a fraction [N / D]. *)
Definition numerator (s : bool) (m : positive) (e : Z) : Z :=
  cond_Zopp s (Z.pos m) * 2 ^ Z.max e 0.
Definition denominator (e : Z) : Z := 2 ^ Z.max (- e) 0.

(** The sources the integer branches of [setFieldValue] list. *)
Definition acceptedNumeric (v : Value) : bool :=
  match v with
  | VInt Sz64 _ | VInt Sz32 _ | VInt SzNative _ | VFloat64 _ => true
  | _ => false
  end.

Definition isIntegerKind (t : GoType) : bool :=
  match t with
  | TInt _ | TUint _ => true
  | _ => false
  end.

(** What an integer field of type [t] holds after [setFieldValue] is given
    the numeric source [v]: [v] itself when the types agree, else [v]
    taken to 64 bits and cut to the width of the field. *)
Definition coerced (t : GoType) (v : Value) : Value :=
  if AssignableTo (TypeOf v) t then v
  else
    match t, v with
    | TInt sz, VInt _ z => VInt sz (wrapS (bits sz) z)
    | TInt sz, VFloat64 x => VInt sz (wrapS (bits sz) (int64_of_float64 x))
    | TUint sz, VInt _ z => VUint sz (wrapU (bits sz) (wrapU 64 z))
    | TUint sz, VFloat64 x => VUint sz (wrapU (bits sz) (uint64_of_float64 x))
    | _, _ => v
    end.

(** The result of rounding to a mantissa [m] between 2^52 and 2^53: a
    mantissa that reached 2^53 is brought back to 53 bits. *)
Definition renorm (m : Z) (e : Z) : spec_float :=
  if m <? 2 ^ 53 then S754_finite false (Z.to_pos m) e
  else S754_finite false (Z.to_pos (2 ^ 52)) (e + 1).

(** Where a quotient with the location [l] lies after its last bit is
    shifted out. *)
Definition halfLocation (q : Z) (l : location) : location :=
  match Z.odd q, l with
  | false, loc_Exact => loc_Exact
  | false, _ => loc_Inexact Lt
  | true, loc_Exact => loc_Inexact Eq
  | true, _ => loc_Inexact Gt
  end.

(** The least integer at or above [m * 2^e], for a positive [m]. *)
Definition ceilValue (m e : Z) : Z :=
  if 0 <=? e then m * 2 ^ e else - ((- m) / 2 ^ (- e)).

(** 7.9 as a [float64]: 0x1.f99999999999ap+2. *)
Definition f7_9 : spec_float := S754_finite false 8894609264056730 (-50).
(** 7.0 as a [float64]. *)
Definition f7_0 : spec_float := S754_finite false 7881299347898368 (-50).

End Spec.

(** ** Records, tables and databases used as instances *)

Module Samples.
Import GoStrings GoNum Reflect Sql Storm QueryBuilder.


Definition acceptAll : DB :=
  mkDB (fun _ _ => None) (fun _ _ => QueryRows (mkRows [] [])) (fun _ => ScanIntOk 0).


Definition untagged : Struct :=
  mkStruct "Note" [mkField "Title" None (VString "a"); mkField "Body" None (VString "b")].


Definition emptyUsers : DB :=
  mkDB (fun _ _ => None)
       (fun _ _ => QueryRows (mkRows ["id"; "name_user"; "email_user"] []))
       (fun _ => ScanIntOk 0).


Definition someUser : Struct :=
  mkStruct "User"
    [mkField "ID" (Some "pk") (VInt SzNative 14);
     mkField "Name" (Some "column:name_user") (VString "aji");
     mkField "Email" (Some "column:email_user") (VString "aji@handsome.com")].


Definition bareColumnTag : Struct :=
  mkStruct "User"
    [mkField "ID" (Some "pk") (VInt SzNative 1);
     mkField "Name" (Some "column") (VString "aji")].


Definition unexportedField : Struct :=
  mkStruct "User"
    [mkField "ID" (Some "pk") (VInt SzNative 1);
     mkField "name" None (VString "aji")].


Definition noKey : Struct :=
  mkStruct "Note" [mkField "Title" None (VString "a"); mkField "Body" None (VString "")].


Definition unexportedKey : Struct :=
  mkStruct "User"
    [mkField "id" (Some "pk") (VInt SzNative 1);
     mkField "Name" None (VString "aji")].


Definition userType : StructType :=
  mkStructType "User"
    [("ID", Some "pk", TInt SzNative);
     ("Name", Some "column:name_user", TString);
     ("Email", Some "column:email_user", TString)].


(** A table whose second row holds an integer in the column [name_user]. *)
Definition mistypedRows : Rows :=
  mkRows ["id"; "name_user"; "email_user"]
    [RowValues [Some (VInt Sz64 1); Some (VString "aji"); Some (VString "aji@handsome.com")];
     RowValues [Some (VInt Sz64 2); Some (VInt Sz64 5); Some (VString "x@y.z")];
     RowValues [Some (VInt Sz64 3); Some (VString "dikha"); Some (VString "dikha@gmail.com")]].


Definition mistyped : DB :=
  mkDB (fun _ _ => None) (fun _ _ => QueryRows mistypedRows) (fun _ => ScanIntOk 3).


Definition firstUser : Struct :=
  mkStruct "User"
    [mkField "ID" (Some "pk") (VInt SzNative 1);
     mkField "Name" (Some "column:name_user") (VString "aji");
     mkField "Email" (Some "column:email_user") (VString "aji@handsome.com")].


(** A table whose only row holds an integer in the column [name_user]. *)
Definition mistypedOne : DB :=
  mkDB (fun _ _ => None)
       (fun _ _ => QueryRows (mkRows ["id"; "name_user"; "email_user"]
          [RowValues [Some (VInt Sz64 2); Some (VInt Sz64 5); Some (VString "x@y.z")]]))
       (fun _ => ScanIntOk 1).

(** A record with one [pk] directive and a non-key field whose column
    name contains the letters [pk]. *)
Definition pkgColumn : Struct :=
  mkStruct "Parcel"
    [mkField "ID" (Some "pk") (VInt SzNative 3);
     mkField "Pkg" (Some "column:pkg") (VString "crate");
     mkField "Name" None (VString "aji")].

(** A record without [pk] directive whose only tag names the column [pkg]. *)
Definition pkgOnly : Struct :=
  mkStruct "Parcel"
    [mkField "Title" None (VString "a");
     mkField "Pkg" (Some "column:pkg") (VString "crate")].

(** A database whose count statement answers [n] and whose tables are empty. *)
Definition counting (n : Z) : DB :=
  mkDB (fun _ _ => None) (fun _ _ => QueryRows (mkRows [] [])) (fun _ => ScanIntOk n).

End Samples.

(** ** storm.go: opening the database *)

Module Connect.
Import GoStrings Reflect Sql.

(** The two calls [New] makes: [sql.Open], which gives a handle or an
    error, and [Ping] on the handle. *)
Record Opener := mkOpener {
  sqlOpen : string -> string -> string + DB;
  dbPing : DB -> error
}.

(** The [Storm] struct: the wrapped handle. *)
Record Storm_ := mkStorm {
  db : DB
}.

(** [New driverName dsn]: the instance ([None] is the nil pointer) and the
    error. *)
Definition New (env : Opener) (driverName dsn : string) : option Storm_ * error :=
  match sqlOpen env driverName dsn with
  | inl err => (None, Some ("Failed to open database connection: " +:+ err))
  | inr handle =>
      match dbPing env handle with
      | Some err => (None, Some ("failed to connect to database: " +:+ err))
      | None => (Some (mkStorm handle), None)
      end
  end.

(** [s.DB()]. *)
Definition DB_ (s : Storm_) : DB := db s.

End Connect.

(** ** Further vocabulary: columns, types and rows of a record *)

Module Mapping.
Import GoStrings GoNum Reflect Sql QueryBuilder.

(** The column [Select] and [Paginate] look a field up under. *)
Definition selectColumnOf (field : Field) : string :=
  let col := ToLower (Name field) in
  match Tag field with
  | Some tag =>
      match Split tag ":" with
      | [p0; p1] => if String.eqb p0 "column" then p1 else col
      | _ => col
      end
  | None => col
  end.

(** The column [First] looks a field up under. *)
Definition firstColumnOf (field : Field) : string :=
  let structFieldName := ToLower (Name field) in
  match Tag field with
  | Some val =>
      match Split val ":" with
      | [_; name] => name
      | _ => structFieldName
      end
  | None => structFieldName
  end.

(** A tag on which [First] and [Select] resolve the same column: it does
    not split into two parts at [:], or its first part is [column]. *)
Definition plainTag (field : Field) : bool :=
  match Tag field with
  | Some tag =>
      match Split tag ":" with
      | [p0; _] => String.eqb p0 "column"
      | _ => true
      end
  | None => true
  end.

(** The declaration of a field, and the type of a struct value. *)
Definition fieldDecl (f : Field) : string * option string * GoType :=
  (Name f, Tag f, TypeOf (Val f)).

Definition StructTypeOf (s : Struct) : StructType :=
  mkStructType (TypeName s) (map fieldDecl (Fields s)).

(** The field with its value set back to the zero value of its type. *)
Definition zeroField (f : Field) : Field :=
  mkField (Name f) (Tag f) (zeroValue (TypeOf (Val f))).

(** The row a record is read back from: the values of its fields, each
    with the dynamic type of the field. *)
Definition rowOf (s : Struct) : Row :=
  RowValues (map (fun f => Some (Val f)) (Fields s)).



(** Every column of the row [vals] is passed over by the assignment loop:
    it is unknown to the column map, or its value is NULL. *)
Definition passedOver (ht : gmap string string) (cols : list string) (vals : list iface)
  : Prop :=
  forall (j : nat) (col : string),
    cols !! j = Some col -> ht !! col = None \/ vals !! j = Some None.

(** The OFFSET [Paginate] computes for a page at least 1. *)
Definition pageOffset (page pageSize : Z) : Z := intMul (intSub page 1) pageSize.

End Mapping.

(** ** Further instances *)

Module Instances.
Import GoStrings GoNum Reflect Sql Storm QueryBuilder Samples.

(** A user with the key set and every other field at its zero value. *)
Definition blankUser : Struct :=
  mkStruct "User"
    [mkField "ID" (Some "pk") (VInt SzNative 5);
     mkField "Name" (Some "column:name_user") (VString "");
     mkField "Email" (Some "column:email_user") (VString "")].

(** A second user, and a table holding [firstUser] and this one, each row
    with the values of the fields in declaration order. *)
Definition secondUser : Struct :=
  mkStruct "User"
    [mkField "ID" (Some "pk") (VInt SzNative 2);
     mkField "Name" (Some "column:name_user") (VString "dikha");
     mkField "Email" (Some "column:email_user") (VString "dikha@gmail.com")].

Definition usersTable : DB :=
  mkDB (fun _ _ => None)
       (fun _ _ => QueryRows (mkRows ["id"; "name_user"; "email_user"]
          [Mapping.rowOf firstUser; Mapping.rowOf secondUser]))
       (fun _ => ScanIntOk 2).

(** A table with a column no field maps and a NULL under [name_user]. *)
Definition nullsAndExtras : DB :=
  mkDB (fun _ _ => None)
       (fun _ _ => QueryRows (mkRows ["created_at"; "name_user"]
          [RowValues [Some (VString "2025"); None]]))
       (fun _ => ScanIntOk 1).


(** A table whose count call stores 7 and then fails on closing the rows. *)
Definition closeFails : DB :=
  mkDB (fun _ _ => None) (fun _ _ => QueryRows (mkRows [] []))
       (fun _ => ScanIntError (mkScanFailure "bad connection" (Some 7))).

(** A table whose count succeeds and whose data query fails. *)
Definition countsOnly : DB :=
  mkDB (fun _ _ => None) (fun _ _ => QueryError "connection lost") (fun _ => ScanIntOk 7).

End Instances.

(** * Properties *)

Import GoStrings GoNum Reflect Sql Storm QueryBuilder Spec Samples.
Import Mapping Instances.

(** ** The string functions on the tags and names of the package *)

Example split_t1 : GoStrings.Split "column:name_user" ":" = ["column"; "name_user"].
Proof. reflexivity. Qed.
Example split_t2 : GoStrings.Split "column" ":" = ["column"].
Proof. reflexivity. Qed.
Example split_t3 : GoStrings.Split "a::b:" ":" = ["a"; ""; "b"; ""].
Proof. reflexivity. Qed.
Example split_t4 : GoStrings.Split "" ":" = [""].
Proof. reflexivity. Qed.
Example split_t5 : GoStrings.Split "a--b-c--" "--" = ["a"; "b-c"; ""].
Proof. reflexivity. Qed.
Example itoa_t : GoStrings.itoa 12 = "12" /\ GoStrings.itoa 0 = "0" /\ GoStrings.itoa (-3) = "-3".
Proof. repeat split; reflexivity. Qed.
Example lower_t : GoStrings.ToLower ("User" +:+ "s") = "users".
Proof. reflexivity. Qed.
Example contains_t : GoStrings.Contains "column:pkg" "pk" = true /\ GoStrings.Contains "x" "" = true /\ GoStrings.Contains "p-k" "pk" = false.
Proof. repeat split; reflexivity. Qed.

(** ** Delete *)

Lemma deleteLoop_no_pk fields pkField pkValue paramCount :
  Forall (fun f => isPrimary f = false) fields ->
  deleteLoop fields pkField pkValue paramCount = Ret (pkField, pkValue, paramCount).
Proof.
  induction 1 as [|f rest Hf _ IH]; simpl; [reflexivity|].
  unfold isPrimary in Hf. rewrite Hf. exact IH.
Qed.

(** C1.  On a record none of whose fields is tagged [pk], [Delete] does not
    stop with a missing-primary-key error: it sends [DELETE FROM <table>
    WHERE  = $0] with the nil interface as its only argument, and returns
    whatever the driver answers. *)
Theorem Delete_no_pk_execs (db : DB) (model : Struct) :
  Forall (fun f => isPrimary f = false) (Fields model) ->
  Delete db model =
    ([CallExec (deleteStatement (TypeName model) "" 0) [None]],
     Ret (dbExec db (deleteStatement (TypeName model) "" 0) [None])).
Proof.
  intros H. unfold Delete. rewrite (deleteLoop_no_pk _ _ _ _ H). reflexivity.
Qed.

Lemma Delete_no_pk_execs_witness :
  Delete acceptAll untagged =
    ([CallExec (newline +:+ tab +:+ "DELETE FROM notes WHERE  = $0" +:+ newline +:+ tab) [None]],
     Ret None).
Proof.
  apply (Delete_no_pk_execs acceptAll untagged).
  repeat constructor.
Defined.

(** ** setFieldValue *)

(** C2.  An [int32] source is not among the cases of the floating-point
    branch: coercing [int32(7)] into a [float64] field leaves the field as it
    was and returns a conversion error. *)
Theorem setFieldValue_int32_into_float64 (name : string) (tag : option string) (old : spec_float) :
  setFieldValue (mkField name tag (VFloat64 old)) (Some (VInt Sz32 7)) =
    Ret (mkField name tag (VFloat64 old), Some "cannot convert int32 to float64").
Proof. reflexivity. Qed.

(** The same value as an [int64] or an [int] is accepted and gives 7.0. *)
Lemma setFieldValue_int64_into_float64 (name : string) (tag : option string) (old : spec_float) :
  IsExported name = true ->
  setFieldValue (mkField name tag (VFloat64 old)) (Some (VInt Sz64 7)) =
    Ret (mkField name tag (VFloat64 f7_0), None)
  /\ setFieldValue (mkField name tag (VFloat64 old)) (Some (VInt SzNative 7)) =
       Ret (mkField name tag (VFloat64 f7_0), None).
Proof.
  intros Hx. unfold setFieldValue. simpl.
  unfold SetFloat, mustBeAssignable, CanSet. simpl. rewrite Hx. split; reflexivity.
Qed.

Lemma truncate_quot s m e :
  truncate (S754_finite s m e) = Some (Z.quot (numerator s m e) (denominator e)).
Proof.
  unfold truncate, numerator, denominator. f_equal.
  destruct (Z.leb_spec 0 e) as [He|He].
  - rewrite Z.max_l, Z.max_r by lia. simpl (2 ^ 0). rewrite Z.quot_1_r.
    destruct s; simpl; lia.
  - rewrite Z.max_r, Z.max_l by lia. rewrite Z.pow_0_r, Z.mul_1_r.
    assert (0 < 2 ^ (- e)) by (apply Z.pow_pos_nonneg; lia).
    destruct s; simpl.
    + change (Z.neg m) with (- Z.pos m). rewrite Z.quot_opp_l by lia.
      rewrite Z.quot_div_nonneg by lia. reflexivity.
    + rewrite Z.quot_div_nonneg by lia. reflexivity.
Qed.

(** C8.  A [float64] source is accepted by a signed integer field and is
    converted by truncation toward zero: the field receives the quotient,
    rounded toward zero, of the number's numerator by its denominator; 7.9
    into an [int64] field gives 7. *)
Theorem setFieldValue_float64_into_int_truncates :
  (forall (field : Field) (sz : IntSize) (z0 : Z) (s : bool) (m : positive) (e : Z),
      Val field = VInt sz z0 ->
      CanSet field = true ->
      - 2 ^ 63 <= Z.quot (numerator s m e) (denominator e) < 2 ^ 63 ->
      setFieldValue field (Some (VFloat64 (S754_finite s m e))) =
        Ret (withVal field
               (VInt sz (wrapS (bits sz) (Z.quot (numerator s m e) (denominator e)))),
             None))
  /\ (forall (name : string) (tag : option string) (z0 : Z),
      IsExported name = true ->
      setFieldValue (mkField name tag (VInt Sz64 z0)) (Some (VFloat64 f7_9)) =
        Ret (mkField name tag (VInt Sz64 7), None)).
Proof.
  assert (G : forall (field : Field) (sz : IntSize) (z0 : Z) (s : bool) (m : positive) (e : Z),
      Val field = VInt sz z0 ->
      CanSet field = true ->
      - 2 ^ 63 <= Z.quot (numerator s m e) (denominator e) < 2 ^ 63 ->
      setFieldValue field (Some (VFloat64 (S754_finite s m e))) =
        Ret (withVal field
               (VInt sz (wrapS (bits sz) (Z.quot (numerator s m e) (denominator e)))),
             None)).
  { intros field sz z0 s m e Hv Hset Hr.
    unfold setFieldValue. rewrite Hv. simpl TypeOf.
    unfold AssignableTo. rewrite bool_decide_eq_false_2 by discriminate.
    unfold SetInt, mustBeAssignable. rewrite Hset, Hv. simpl.
    unfold int64_of_float64. rewrite truncate_quot.
    unfold minInt64.
    destruct (Z.leb_spec (- 2 ^ 63) (Z.quot (numerator s m e) (denominator e))); [|lia].
    destruct (Z.ltb_spec (Z.quot (numerator s m e) (denominator e)) (2 ^ 63)); [|lia].
    reflexivity. }
  split; [exact G|].
  intros name tag z0 Hx. unfold f7_9.
  rewrite (G (mkField name tag (VInt Sz64 z0)) Sz64 z0 false 8894609264056730%positive (-50));
    [reflexivity|reflexivity|exact Hx|].
  vm_compute; split; [intros ?; discriminate | reflexivity].
Qed.

Lemma setFieldValue_float64_into_int_truncates_witness :
  setFieldValue (mkField "Age" None (VInt Sz64 0)) (Some (VFloat64 f7_9)) =
    Ret (mkField "Age" None (VInt Sz64 7), None).
Proof.
  apply (proj2 setFieldValue_float64_into_int_truncates "Age" None 0).
  reflexivity.
Defined.

Lemma setFieldValue_integer_total (field : Field) (v : Value) :
  CanSet field = true ->
  isIntegerKind (TypeOf (Val field)) = true ->
  acceptedNumeric v = true ->
  setFieldValue field (Some v) =
    Ret (withVal field (coerced (TypeOf (Val field)) v), None).
Proof.
  intros Hset Hk Hv. unfold setFieldValue, coerced.
  destruct (AssignableTo (TypeOf v) (TypeOf (Val field))) eqn:Ha.
  - unfold Set_, mustBeAssignable. rewrite Hset. reflexivity.
  - destruct (Val field) as [| sz z0 | sz z0 | | | |] eqn:Hf; try discriminate Hk;
      destruct v as [| [] z | | | x | |]; try discriminate Hv; simpl;
      unfold SetInt, SetUint, mustBeAssignable; rewrite Hset, Hf; reflexivity.
Qed.

(** C10 (amended).  On a settable field of a signed or unsigned integer kind,
    [setFieldValue] is total over the sources its integer branches accept:
    it returns nil and never panics, and a source that does not fit the
    field is stored cut to the field's width. *)
Theorem setFieldValue_out_of_range_wraps (field : Field) (v : Value) :
  CanSet field = true ->
  isIntegerKind (TypeOf (Val field)) = true ->
  acceptedNumeric v = true ->
  setFieldValue field (Some v) =
    Ret (withVal field (coerced (TypeOf (Val field)) v), None)
  /\ forall msg, setFieldValue field (Some v) <> Panic msg.
Proof.
  intros Hset Hk Hv.
  rewrite (setFieldValue_integer_total field v Hset Hk Hv).
  split; [reflexivity | discriminate].
Qed.

Lemma setFieldValue_out_of_range_wraps_witness :
  setFieldValue (mkField "Age" None (VInt Sz8 0)) (Some (VInt Sz64 300)) =
    Ret (mkField "Age" None (VInt Sz8 44), None)
  /\ forall msg,
      setFieldValue (mkField "Age" None (VInt Sz8 0)) (Some (VInt Sz64 300)) <> Panic msg.
Proof.
  apply (setFieldValue_out_of_range_wraps
           (mkField "Age" None (VInt Sz8 0)) (VInt Sz64 300));
    reflexivity.
Defined.

(** C10 as stated fails: [int64(300)] into an [int8] field neither panics
    nor returns an error; the field receives 44. *)
Lemma setFieldValue_300_into_int8 :
  setFieldValue (mkField "Age" None (VInt Sz8 0)) (Some (VInt Sz64 300)) =
    Ret (mkField "Age" None (VInt Sz8 44), None)
  /\ ~ (exists (field : Field) (v : Value) (msg : string),
          CanSet field = true /\ isIntegerKind (TypeOf (Val field)) = true
          /\ acceptedNumeric v = true
          /\ setFieldValue field (Some v) = Panic msg).
Proof.
  split; [reflexivity|].
  intros (field & v & msg & Hset & Hk & Hv & Hp).
  rewrite (setFieldValue_integer_total field v Hset Hk Hv) in Hp. discriminate.
Qed.

(** ** Paginate: the statements sent *)

(** C9.  A filter and a limit set on the query leave [Paginate] as it is:
    the count statement and the data statement are built from the table
    and the column list alone, and the data statement's only arguments are
    the page size and the offset. *)
Theorem Paginate_ignores_where_and_limit
    (q : Query) (condition : string) (args : list iface) (n : Z)
    (tipe : StructType) (dest : list Struct) (page pageSize total totalPages : Z)
    (queryCol : list string) :
  let q' := Limit (Where q condition args) n in
  let pg := if page <? 1 then 1 else page in
  let ps := if pageSize <=? 0 then 1 else pageSize in
  let count := "SELECT COUNT(*) FROM " +:+ table q in
  let data :=
    "SELECT " +:+ (if (0 <? length queryCol)%nat then Join queryCol "," else "*")
      +:+ " FROM " +:+ table q +:+ " ORDER BY id LIMIT $1 OFFSET $2" in
  Paginate q' tipe dest page pageSize total totalPages queryCol =
    Paginate q tipe dest page pageSize total totalPages queryCol
  /\ fst (Paginate q' tipe dest page pageSize total totalPages queryCol) =
       match dbQueryRow (storm q) count with
       | ScanIntError _ => [CallQueryRow count]
       | ScanIntOk _ =>
           [CallQueryRow count;
            CallQuery data [Some (VInt SzNative ps);
                            Some (VInt SzNative (intMul (intSub pg 1) ps))]]
       end.
Proof.
  intros q' pg ps count data. split; [reflexivity|].
  unfold Paginate. subst q'. simpl storm. simpl table.
  fold count. unfold countStatement. fold count.
  destruct (dbQueryRow (storm q) count) as [e|t]; [reflexivity|].
  unfold pageStatement. fold data. fold pg. fold ps.
  destruct (dbQuery (storm q) data _); reflexivity.
Qed.

(** ** First *)

Lemma FieldByName_lookup (fields : list Field) (name : string) (k : nat) :
  FieldByName fields name = Some k -> exists f, fields !! k = Some f.
Proof.
  revert k. induction fields as [|f rest IH]; intros k; simpl; [discriminate|].
  destruct (String.eqb (Name f) name).
  - intros [= <-]. exists f. reflexivity.
  - destruct (FieldByName rest name) as [k'|]; [|discriminate].
    intros [= <-]. destruct (IH k' eq_refl) as [f' Hf']. exists f'. exact Hf'.
Qed.

Lemma index_lookup {A : Type} (l : list A) (i : nat) (x : A) :
  l !! i = Some x -> index l i = Ret x.
Proof. intros H. unfold index. rewrite H. reflexivity. Qed.

(** When every value still to be read is nil, the assignment loop of
    [First] leaves the destination alone. *)
Lemma firstAssign_all_nil (ht : gmap string string) (columnNames : list string) :
  forall (i : nat) (vals : list iface) (dest : list Field),
    (forall j, (i <= j < i + length columnNames)%nat -> vals !! j = Some None) ->
    firstAssign ht columnNames i vals dest = Ret (dest, None).
Proof.
  induction columnNames as [|col rest IH]; intros i vals dest Hnil; simpl; [reflexivity|].
  assert (Hrest : forall j, (S i <= j < S i + length rest)%nat -> vals !! j = Some None).
  { intros j Hj. apply Hnil. simpl. lia. }
  destruct (ht !! col) as [structFieldName|]; [|apply IH, Hrest].
  destruct (FieldByName dest structFieldName) as [k|] eqn:Hk; [|apply IH, Hrest].
  destruct (FieldByName_lookup _ _ _ Hk) as [field Hfield].
  rewrite (index_lookup _ _ _ Hfield).
  rewrite (index_lookup vals i None) by (apply Hnil; simpl; lia).
  simpl. rewrite (list_insert_id _ _ _ Hfield). apply IH, Hrest.
Qed.

(** C5.  When the statement [First] sends is answered by a result set
    without rows, [First] returns nil and the destination struct is, field
    for field, what it was before the call. *)
Theorem First_zero_rows_leaves_dest
    (q : Query) (dest : Struct) (queryCol : list string) (cols : list string) :
  dbQuery (storm q) (firstQuery q queryCol).1 (firstQuery q queryCol).2 =
    QueryRows (mkRows cols []) ->
  First q dest queryCol =
    ([CallQuery (firstQuery q queryCol).1 (firstQuery q queryCol).2], Ret (dest, None)).
Proof.
  intros Hrows. unfold First.
  destruct (firstQuery q queryCol) as [query args]. simpl in Hrows. rewrite Hrows.
  simpl. rewrite firstAssign_all_nil.
  - destruct dest. reflexivity.
  - intros j Hj. apply lookup_replicate_2. lia.
Qed.

Lemma First_zero_rows_leaves_dest_witness :
  First (Where (From emptyUsers someUser) "id = $1" [Some (VInt SzNative 14)]) someUser [] =
    ([CallQuery "SELECT * FROM users WHERE id = $1 LIMIT 1" [Some (VInt SzNative 14)]],
     Ret (someUser, None)).
Proof.
  apply (First_zero_rows_leaves_dest
           (Where (From emptyUsers someUser) "id = $1" [Some (VInt SzNative 14)])
           someUser [] ["id"; "name_user"; "email_user"]).
  reflexivity.
Defined.

(** ** The primary key: the directive and the test of the code *)

Lemma append_snoc (cur : string) (c : ascii) (x : string) :
  (cur +:+ String c "") +:+ x = cur +:+ String c x.
Proof.
  induction cur as [|d cur IH]; [reflexivity|].
  change (String d ((cur +:+ String c "") +:+ x) = String d (cur +:+ String c x)).
  f_equal. exact IH.
Qed.

Lemma append_empty (cur : string) : cur +:+ "" = cur.
Proof.
  induction cur as [|d cur IH]; [reflexivity|].
  change (String d (cur +:+ "") = String d cur). f_equal. exact IH.
Qed.

Lemma append_assoc3 (u v w : string) : (u +:+ v) +:+ w = u +:+ (v +:+ w).
Proof.
  induction u as [|d u IH]; [reflexivity|].
  change (String d ((u +:+ v) +:+ w) = String d (u +:+ (v +:+ w))). f_equal. exact IH.
Qed.

Lemma HasPrefix_append (x b : string) : HasPrefix (x +:+ b) x = true.
Proof.
  induction x as [|c x IH]; [destruct b; reflexivity|].
  change (String c x +:+ b) with (String c (x +:+ b)). cbn [HasPrefix].
  rewrite Ascii.eqb_refl. exact IH.
Qed.

Lemma Contains_HasPrefix (s x : string) : HasPrefix s x = true -> Contains s x = true.
Proof. intros H. destruct s; cbn [Contains]; rewrite H; reflexivity. Qed.

(** A string occurs in every string it is a piece of. *)
Lemma Contains_middle (a x b : string) : Contains (a +:+ x +:+ b) x = true.
Proof.
  induction a as [|c a IH].
  - change ("" +:+ x +:+ b) with (x +:+ b). apply Contains_HasPrefix, HasPrefix_append.
  - change (String c a +:+ x +:+ b) with (String c (a +:+ x +:+ b)).
    cbn [Contains]. rewrite IH. apply orb_true_r.
Qed.

(** Every piece [strings.Split] cuts at the commas is a piece of the
    string. *)
Lemma splitScan_piece (s : string) :
  forall (cur x : string),
    In x (splitScan "," s 0 cur) -> exists a b, cur +:+ s = a +:+ x +:+ b.
Proof.
  induction s as [|c s IH]; intros cur x Hin.
  - destruct Hin as [<-|[]]. exists "", "". reflexivity.
  - cbn [splitScan] in Hin.
    destruct (HasPrefix (String c s) ",") eqn:Hp.
    + cbn [String.length Nat.sub] in Hin. destruct Hin as [<-|Hin].
      * exists "", (String c s). reflexivity.
      * destruct (IH "" x Hin) as (a & b & Hs).
        change ("" +:+ s) with s in Hs.
        exists (cur +:+ String c a), b.
        rewrite append_assoc3. change (String c a +:+ x +:+ b) with (String c (a +:+ x +:+ b)).
        rewrite <- Hs. reflexivity.
    + destruct (IH _ x Hin) as (a & b & Hs). rewrite append_snoc in Hs. eauto.
Qed.

(** A field with the [pk] directive passes the test of the code. *)
Lemma pkDirective_isPrimary (f : Field) : pkDirective f = true -> isPrimary f = true.
Proof.
  unfold pkDirective, directives, isPrimary, Split. intros H.
  apply existsb_exists in H as (x & Hin & Hx).
  apply String.eqb_eq in Hx. subst x.
  destruct (splitScan_piece _ _ _ Hin) as (a & b & Hs).
  change ("" +:+ TagGet f) with (TagGet f) in Hs. rewrite Hs. apply Contains_middle.
Qed.

(** When no field without the directive has [pk] in its tag, the directive
    and the test of the code single out the same fields. *)
Lemma nonKeyDeclared_nonKeyFields (fields : list Field) :
  forall i : Z,
    Forall (fun p => Contains (TagGet p.2) "pk" = false) (nonKeyDeclared fields i) ->
    nonKeyDeclared fields i = nonKeyFields fields i
    /\ List.filter pkDirective fields = List.filter isPrimary fields.
Proof.
  induction fields as [|f rest IH]; intros i Hno; [split; reflexivity|].
  cbn [nonKeyDeclared nonKeyFields List.filter] in *.
  destruct (pkDirective f) eqn:Hf.
  - rewrite (pkDirective_isPrimary f Hf). destruct (IH _ Hno) as [-> ->]. split; reflexivity.
  - apply Forall_cons in Hno as [Hc Hno]. cbn [snd] in Hc.
    assert (Hp : isPrimary f = false) by exact Hc.
    rewrite Hp. destruct (IH _ Hno) as [-> ->]. split; reflexivity.
Qed.

Lemma nonZeroDeclared_nonZeroFields (fields : list Field) (i : Z) :
  Forall (fun p => Contains (TagGet p.2) "pk" = false) (nonKeyDeclared fields i) ->
  nonZeroDeclared fields i = nonZeroFields fields i.
Proof.
  intros Hno. unfold nonZeroDeclared, nonZeroFields.
  rewrite (proj1 (nonKeyDeclared_nonKeyFields fields i Hno)). reflexivity.
Qed.

(** ** Insert *)

Lemma splitScan_cons (sep s : string) (skip : nat) (cur : string) :
  exists a rest, splitScan sep s skip cur = a :: rest.
Proof.
  revert skip cur. induction s as [|c s IH]; intros skip cur; cbn [splitScan]; [eauto|].
  destruct skip as [|k]; [|apply IH].
  destruct (HasPrefix (String c s) sep); [eauto|apply IH].
Qed.

Lemma splitScan_colon_second (s : string) :
  forall cur : string,
    Contains s ":" = true -> exists x, splitScan ":" s 0 cur !! 1%nat = Some x.
Proof.
  induction s as [|c s IH]; intros cur; [discriminate|].
  cbn [Contains splitScan].
  destruct (HasPrefix (String c s) ":") eqn:Hp.
  - intros _. cbn [String.length Nat.sub].
    destruct (splitScan_cons ":" s 0 "") as (a & rest & ->). exists a. reflexivity.
  - rewrite orb_false_l. intros Hc. apply IH, Hc.
Qed.

Lemma Split_colon_second (s : string) :
  Contains s ":" = true -> exists x, Split s ":" !! 1%nat = Some x.
Proof. apply splitScan_colon_second. Qed.

(** The column of a non-key field as the loops of [Insert] and [Update]
    compute it, when the tag is well formed. *)
Lemma resolve_column (f : Field) :
  columnTagOk f = true ->
  (if Contains (TagGet f) "column" then index (Split (TagGet f) ":") 1
   else Ret (ToLower (Name f))) = Ret (columnName f).
Proof.
  unfold columnTagOk, columnName. intros Hok.
  destruct (Contains (TagGet f) "column"); [|reflexivity].
  simpl in Hok. destruct (Split_colon_second _ Hok) as [x Hx].
  unfold index. rewrite Hx. reflexivity.
Qed.

Lemma Interface_exported (f : Field) :
  IsExported (Name f) = true -> Interface f = Ret (Some (Val f)).
Proof. intros H. unfold Interface. rewrite H. reflexivity. Qed.

Lemma insertLoop_spec (fields : list Field) :
  forall (i : Z) (columns placeholders : list string) (values : list iface),
    Forall (fun p => columnTagOk p.2 = true /\ IsExported (Name p.2) = true)
           (nonKeyFields fields i) ->
    insertLoop fields i columns placeholders values =
      Ret (columns ++ insertColumns (nonKeyFields fields i),
           placeholders ++ insertPlaceholders (nonKeyFields fields i),
           values ++ fieldValues (nonKeyFields fields i)).
Proof.
  induction fields as [|f rest IH]; intros i columns placeholders values Hok.
  - simpl. rewrite !app_nil_r. reflexivity.
  - cbn [insertLoop nonKeyFields] in *. unfold isPrimary in *.
    destruct (Contains (TagGet f) "pk"); [apply IH, Hok|].
    apply Forall_cons in Hok as [[Htag Hexp] Hrest]. simpl in Htag, Hexp.
    rewrite (resolve_column f Htag), (Interface_exported f Hexp). simpl.
    rewrite (IH _ _ _ _ Hrest).
    unfold insertColumns, insertPlaceholders, fieldValues. simpl.
    rewrite <- !app_assoc. reflexivity.
Qed.

(** C3 (amended).  For a record with exactly one primary-key field and N
    non-key fields, every non-key field being exported, carrying no tag
    that contains the letters [pk] and no tag that contains [column] without
    a [:], [Insert] sends one INSERT statement that lists N columns and N
    placeholders and passes N arguments: the values of the non-key fields,
    in declaration order, as the columns are. *)
Theorem Insert_columns_placeholders_arguments (db : DB) (model : Struct) (N : nat) :
  length (List.filter pkDirective (Fields model)) = 1%nat ->
  length (nonKeyDeclared (Fields model) 0) = N ->
  Forall (fun p => Contains (TagGet p.2) "pk" = false
                   /\ columnTagOk p.2 = true /\ IsExported (Name p.2) = true)
         (nonKeyDeclared (Fields model) 0) ->
  let nk := nonKeyDeclared (Fields model) 0 in
  let columns := map (fun p => columnName p.2) nk in
  let placeholders := map (fun p => "$" +:+ itoa p.1) nk in
  let values := map (fun p => Some (Val p.2)) nk in
  let q := "INSERT INTO " +:+ ToLower (TypeName model +:+ "s") +:+ " ("
             +:+ Join columns ", " +:+ ") VALUES (" +:+ Join placeholders ", " +:+ ")" in
  Insert db model = ([CallExec q values], Ret (dbExec db q values))
  /\ length columns = N /\ length placeholders = N /\ length values = N.
Proof.
  intros _ HN Hok nk columns placeholders values q.
  assert (Hnk : nk = nonKeyFields (Fields model) 0).
  { apply nonKeyDeclared_nonKeyFields.
    eapply Forall_impl; [exact Hok|]. intros p (Hp & _). exact Hp. }
  split.
  - unfold Insert. rewrite insertLoop_spec.
    + subst q columns placeholders values. rewrite Hnk. reflexivity.
    + rewrite <- Hnk. eapply Forall_impl; [exact Hok|]. intros p (_ & Hp). exact Hp.
  - subst columns placeholders values nk. rewrite !length_map. auto.
Qed.

Lemma Insert_columns_placeholders_arguments_witness :
  Insert acceptAll someUser =
    ([CallExec "INSERT INTO users (name_user, email_user) VALUES ($1, $2)"
        [Some (VString "aji"); Some (VString "aji@handsome.com")]],
     Ret None)
  /\ length ["name_user"; "email_user"] = 2%nat
  /\ length ["$1"; "$2"] = 2%nat
  /\ length [Some (VString "aji"); Some (VString "aji@handsome.com")] = 2%nat.
Proof.
  apply (Insert_columns_placeholders_arguments acceptAll someUser 2).
  - reflexivity.
  - reflexivity.
  - repeat constructor.
Defined.

(** C3 as stated fails on three records, each with one primary-key field.
    On the first two, with one non-key field, [Insert] panics and sends
    nothing: the tag holds [column] without a [:], or the field is
    unexported.  On the third, with two non-key fields, it takes the field
    tagged [column:pkg] for a key and sends one column, one placeholder and
    one argument. *)
Lemma Insert_panics_or_drops_a_column :
  (length (List.filter pkDirective (Fields bareColumnTag)) = 1%nat
   /\ length (nonKeyDeclared (Fields bareColumnTag) 0) = 1%nat
   /\ Insert acceptAll bareColumnTag = ([], Panic "runtime error: index out of range"))
  /\ (length (List.filter pkDirective (Fields unexportedField)) = 1%nat
      /\ length (nonKeyDeclared (Fields unexportedField) 0) = 1%nat
      /\ fst (Insert acceptAll unexportedField) = []
      /\ exists msg, snd (Insert acceptAll unexportedField) = Panic msg)
  /\ (length (List.filter pkDirective (Fields pkgColumn)) = 1%nat
      /\ length (nonKeyDeclared (Fields pkgColumn) 0) = 2%nat
      /\ Insert acceptAll pkgColumn =
           ([CallExec "INSERT INTO parcels (name) VALUES ($2)" [Some (VString "aji")]],
            Ret None)).
Proof.
  repeat split; try reflexivity. eexists. reflexivity.
Qed.

(** ** Update *)

Lemma updateLoop_spec (fields : list Field) :
  forall (i : Z) (st : updateVars),
    Forall (fun p => columnTagOk p.2 = true) (nonKeyFields fields i) ->
    Forall (fun p => IsExported (Name p.2) = true) (nonZeroFields fields i) ->
    Forall (fun f => IsExported (Name f) = true) (List.filter isPrimary fields) ->
    updateLoop fields i st =
      Ret (mkUpdateVars
             (u_paramCount st + Z.of_nat (length (nonZeroFields fields i)))
             (u_setClause st ++ setFragments (nonZeroFields fields i))
             (u_vals st ++ fieldValues (nonZeroFields fields i))
             (finalKey fields (u_pkField st) (u_pkValue st)).1
             (finalKey fields (u_pkField st) (u_pkValue st)).2).
Proof.
  induction fields as [|f rest IH]; intros i st Htag Hexp Hpk.
  - destruct st. simpl. rewrite Z.add_0_r, !app_nil_r. reflexivity.
  - unfold nonZeroFields, finalKey in *.
    cbn [updateLoop nonKeyFields List.filter] in *. unfold isPrimary in *.
    destruct (Contains (TagGet f) "pk") eqn:Hf.
    + apply Forall_cons in Hpk as [Hx Hpk].
      rewrite (Interface_exported f Hx). simpl.
      rewrite (IH _ _ Htag Hexp Hpk). simpl.
      rewrite last_cons.
      destruct (last (List.filter _ rest)); reflexivity.
    + apply Forall_cons in Htag as [Hc Htag]. simpl in Hc.
      rewrite (resolve_column f Hc). simpl.
      cbn [List.filter] in *. simpl in Hexp |- *.
      destruct (IsZero (Val f)); simpl in *.
      * rewrite (IH _ _ Htag Hexp Hpk). reflexivity.
      * apply Forall_cons in Hexp as [Hx Hexp]. simpl in Hx.
        rewrite (Interface_exported f Hx). simpl.
        rewrite (IH _ _ Htag Hexp Hpk). simpl.
        unfold setFragments, fieldValues. simpl.
        rewrite <- !app_assoc. simpl.
        f_equal. f_equal. lia.
Qed.

Lemma exported_nonempty (name : string) :
  IsExported name = true -> String.eqb name "" = false.
Proof. destruct name; [discriminate|reflexivity]. Qed.

(** C6 (amended).  Let every non-key field carry no tag that contains
    the letters [pk] and no tag that contains [column] without a [:], and
    let the non-key fields that hold a non-zero value be exported.  For a
    record with exactly one primary-key field, that field exported, [Update]
    sends [UPDATE <table> SET <fragments> WHERE <pk> = $<n>], where <pk> is
    the name of the primary-key field as the struct declares it, not its
    column, and n is one more than the number of fragments, and passes the
    non-zero non-key values in declaration order followed by the primary-key
    value.  For a record without a primary-key field it returns the
    missing-primary-key error and sends nothing. *)
Theorem Update_statement_and_arguments (db : DB) (model : Struct) :
  Forall (fun p => Contains (TagGet p.2) "pk" = false /\ columnTagOk p.2 = true)
         (nonKeyDeclared (Fields model) 0) ->
  Forall (fun p => IsExported (Name p.2) = true) (nonZeroDeclared (Fields model) 0) ->
  (forall pk : Field,
      List.filter pkDirective (Fields model) = [pk] ->
      IsExported (Name pk) = true ->
      let nz := nonZeroDeclared (Fields model) 0 in
      let fragments := map (fun p => columnName p.2 +:+ " = $" +:+ itoa p.1) nz in
      let args := map (fun p => Some (Val p.2)) nz ++ [Some (Val pk)] in
      let q := newline +:+ tab +:+ tab +:+ "UPDATE " +:+ ToLower (TypeName model +:+ "s")
                 +:+ " SET " +:+ Join fragments ", " +:+ " WHERE " +:+ Name pk
                 +:+ " = $" +:+ itoa (1 + Z.of_nat (length nz)) +:+ newline +:+ tab in
      Update db model = ([CallExec q args], Ret (dbExec db q args)))
  /\ (List.filter pkDirective (Fields model) = [] ->
      Update db model = ([], Ret (Some "no primary key is found for update"))).
Proof.
  intros Hok Hexp.
  assert (Hno : Forall (fun p => Contains (TagGet p.2) "pk" = false)
                  (nonKeyDeclared (Fields model) 0)).
  { eapply Forall_impl; [exact Hok|]. intros p (Hp & _). exact Hp. }
  destruct (nonKeyDeclared_nonKeyFields _ _ Hno) as [Hnk Hkeys].
  rewrite (nonZeroDeclared_nonZeroFields _ _ Hno) in *. rewrite Hkeys.
  assert (Htag : Forall (fun p => columnTagOk p.2 = true) (nonKeyFields (Fields model) 0)).
  { rewrite <- Hnk. eapply Forall_impl; [exact Hok|]. intros p (_ & Hp). exact Hp. }
  split.
  - intros pk Hpk Hx nz fragments args q.
    unfold Update. rewrite (updateLoop_spec _ _ _ Htag Hexp).
    + unfold finalKey. rewrite Hpk. simpl.
      rewrite (exported_nonempty _ Hx). reflexivity.
    + rewrite Hpk. repeat constructor. exact Hx.
  - intros Hpk. unfold Update. rewrite (updateLoop_spec _ _ _ Htag Hexp).
    + unfold finalKey. rewrite Hpk. reflexivity.
    + rewrite Hpk. constructor.
Qed.

Lemma Update_statement_and_arguments_witness :
  Update acceptAll someUser =
    ([CallExec
        (newline +:+ tab +:+ tab
           +:+ "UPDATE users SET name_user = $1, email_user = $2 WHERE ID = $3"
           +:+ newline +:+ tab)
        [Some (VString "aji"); Some (VString "aji@handsome.com"); Some (VInt SzNative 14)]],
     Ret None)
  /\ Update acceptAll noKey = ([], Ret (Some "no primary key is found for update")).
Proof.
  split.
  - apply (proj1 (Update_statement_and_arguments acceptAll someUser
                    ltac:(repeat constructor) ltac:(repeat constructor))
             (mkField "ID" (Some "pk") (VInt SzNative 14))); reflexivity.
  - apply (proj2 (Update_statement_and_arguments acceptAll noKey
                    ltac:(repeat constructor) ltac:(repeat constructor))).
    reflexivity.
Defined.

(** C6 as stated fails in four ways.  The WHERE clause names the
    primary-key field as declared, [ID], where its column, for the writers
    and for the readers, is [id].  On
    records with exactly one primary-key field [Update] panics and sends
    nothing when a tag holds [column] without a [:], when a non-zero non-key
    field is unexported and when the primary-key field is unexported.  A
    field tagged [column:pkg] is taken for the key: beside a primary-key
    field it replaces it in the WHERE clause, and on a record without
    primary-key field the statement is sent where the error is due. *)
Lemma Update_names_the_field_panics_or_takes_pkg :
  (List.filter pkDirective (Fields someUser) = [mkField "ID" (Some "pk") (VInt SzNative 14)]
   /\ columnName (mkField "ID" (Some "pk") (VInt SzNative 14)) = "id"
   /\ selectColumnOf (mkField "ID" (Some "pk") (VInt SzNative 14)) = "id"
   /\ Update acceptAll someUser =
        ([CallExec
            (newline +:+ tab +:+ tab
               +:+ "UPDATE users SET name_user = $1, email_user = $2 WHERE ID = $3"
               +:+ newline +:+ tab)
            [Some (VString "aji"); Some (VString "aji@handsome.com");
             Some (VInt SzNative 14)]],
         Ret None))
  /\ (length (List.filter pkDirective (Fields bareColumnTag)) = 1%nat
      /\ Update acceptAll bareColumnTag = ([], Panic "runtime error: index out of range"))
  /\ (length (List.filter pkDirective (Fields unexportedField)) = 1%nat
      /\ fst (Update acceptAll unexportedField) = []
      /\ exists msg, snd (Update acceptAll unexportedField) = Panic msg)
  /\ (length (List.filter pkDirective (Fields unexportedKey)) = 1%nat
      /\ fst (Update acceptAll unexportedKey) = []
      /\ exists msg, snd (Update acceptAll unexportedKey) = Panic msg)
  /\ (List.filter pkDirective (Fields pkgColumn) = [mkField "ID" (Some "pk") (VInt SzNative 3)]
      /\ Update acceptAll pkgColumn =
           ([CallExec
               (newline +:+ tab +:+ tab
                  +:+ "UPDATE parcels SET name = $2 WHERE Pkg = $2" +:+ newline +:+ tab)
               [Some (VString "aji"); Some (VString "crate")]],
            Ret None))
  /\ (List.filter pkDirective (Fields pkgOnly) = []
      /\ Update acceptAll pkgOnly =
           ([CallExec
               (newline +:+ tab +:+ tab
                  +:+ "UPDATE parcels SET title = $0 WHERE Pkg = $2" +:+ newline +:+ tab)
               [Some (VString "a"); Some (VString "crate")]],
            Ret None)).
Proof.
  repeat split; try reflexivity; eexists; reflexivity.
Qed.

(** ** Row mapping *)

Lemma selectAssign_app (ht : gmap string string) (pre post : list string) :
  forall (i : nat) (vals : list iface) (s : list Field),
    selectAssign ht (pre ++ post) i vals s =
      match selectAssign ht pre i vals s with
      | Ret (s', None) => selectAssign ht post (i + length pre) vals s'
      | other => other
      end.
Proof.
  induction pre as [|col pre IH]; intros i vals s; simpl.
  - rewrite Nat.add_0_r. reflexivity.
  - replace (i + S (length pre))%nat with (S i + length pre)%nat by lia.
    destruct (ht !! col) as [fname|]; [|apply IH].
    destruct (FieldByName s fname) as [k|]; [|apply IH].
    destruct (index s k) as [field|]; [|reflexivity]. simpl.
    destruct (index vals i) as [v|]; [|reflexivity]. simpl.
    destruct (setFieldValue field v) as [[field' [e|]]|]; simpl;
      [reflexivity|apply IH|reflexivity].
Qed.

Lemma firstAssign_app (ht : gmap string string) (pre post : list string) :
  forall (i : nat) (vals : list iface) (s : list Field),
    firstAssign ht (pre ++ post) i vals s =
      match firstAssign ht pre i vals s with
      | Ret (s', None) => firstAssign ht post (i + length pre) vals s'
      | other => other
      end.
Proof.
  induction pre as [|col pre IH]; intros i vals s; simpl.
  - rewrite Nat.add_0_r. reflexivity.
  - replace (i + S (length pre))%nat with (S i + length pre)%nat by lia.
    destruct (ht !! col) as [fname|]; [|apply IH].
    destruct (FieldByName s fname) as [k|]; [|apply IH].
    destruct (index s k) as [field|]; [|reflexivity]. simpl.
    destruct (index vals i) as [v|]; [|reflexivity]. simpl.
    destruct (setFieldValue field v) as [[field' [e|]]|]; simpl;
      [reflexivity|apply IH|reflexivity].
Qed.

(** The loop stops at the column where coercion fails: the columns after
    it are not looked at. *)
Lemma selectAssign_stops (ht : gmap string string) (col : string) (post : list string)
    (i : nat) (vals : list iface) (s : list Field) (fname : string) (k : nat)
    (field' : Field) (cause : string) :
  coercionFails ht s col (vals !! i) fname k field' cause ->
  selectAssign ht (col :: post) i vals s =
    Ret (<[k := field']> s, Some ("error setting field " +:+ fname +:+ ": " +:+ cause)).
Proof.
  intros (Hht & Hk & field & value & Hfield & Hv & Hset). simpl.
  rewrite Hht, Hk, (index_lookup _ _ _ Hfield), (index_lookup _ _ _ Hv). simpl.
  rewrite Hset. reflexivity.
Qed.

Lemma firstAssign_stops (ht : gmap string string) (col : string) (post : list string)
    (i : nat) (vals : list iface) (s : list Field) (fname : string) (k : nat)
    (field' : Field) (cause : string) :
  coercionFails ht s col (vals !! i) fname k field' cause ->
  firstAssign ht (col :: post) i vals s = Ret (<[k := field']> s, Some cause).
Proof.
  intros (Hht & Hk & field & value & Hfield & Hv & Hset). simpl.
  rewrite Hht, Hk, (index_lookup _ _ _ Hfield), (index_lookup _ _ _ Hv). simpl.
  rewrite Hset. reflexivity.
Qed.

Lemma selectRows_app (tipe : StructType) (cols : list string) (before after : list Row) :
  forall dest : list Struct,
    selectRows tipe cols (before ++ after) dest =
      match selectRows tipe cols before dest with
      | Ret (dest1, None) => selectRows tipe cols after dest1
      | other => other
      end.
Proof.
  induction before as [|r before IH]; intros dest; simpl; [reflexivity|].
  destruct (Scan (length cols) r) as [e|vals]; [reflexivity|].
  destruct (selectAssign _ cols 0 vals _) as [[fields [e|]]|]; simpl;
    [reflexivity|apply IH|reflexivity].
Qed.

Lemma selectRows_failing_row (tipe : StructType) (cols : list string)
    (before after : list Row) (r : Row) (dest dest1 : list Struct)
    (vals : list iface) (fname cause : string) :
  selectRows tipe cols before dest = Ret (dest1, None) ->
  Scan (length cols) r = inr vals ->
  rowFails tipe cols vals fname cause ->
  selectRows tipe cols (before ++ r :: after) dest =
    Ret (dest1, Some ("error setting field " +:+ fname +:+ ": " +:+ cause)).
Proof.
  intros Hbefore Hscan (pre & col & post & s & k & field' & -> & Hpre & Hfail).
  rewrite selectRows_app, Hbefore. cbn [selectRows]. rewrite Hscan.
  rewrite selectAssign_app, Hpre. simpl (0 + _)%nat.
  rewrite (selectAssign_stops _ _ _ _ _ _ _ _ _ _ Hfail). reflexivity.
Qed.

(** C7 (amended).  When coercion of a row value fails during row mapping,
    population of that row stops at the failing column.  [Select] and
    [Paginate] then append neither that row nor any later one, and return
    [error setting field <F>: <cause>], where <F> is the name of the struct
    field the column is mapped to and <cause> the error of [setFieldValue].
    [First] keeps what it has set up to that column and returns an error. *)
Theorem coercion_failure_aborts_row :
  (forall (tipe : StructType) (cols : list string) (before after : list Row) (r : Row)
          (dest dest1 : list Struct) (vals : list iface) (fname cause : string),
      selectRows tipe cols before dest = Ret (dest1, None) ->
      Scan (length cols) r = inr vals ->
      rowFails tipe cols vals fname cause ->
      let rows := mkRows cols (before ++ r :: after) in
      let err := Some ("error setting field " +:+ fname +:+ ": " +:+ cause) in
      (forall (q : Query) (queryCol : list string),
          dbQuery (storm q) (selectQuery q queryCol).1 (selectQuery q queryCol).2 =
            QueryRows rows ->
          snd (Select q tipe dest queryCol) = Ret (dest1, err))
      /\ (forall (q : Query) (page pageSize total totalPages n : Z) (queryCol : list string),
          let pg := if page <? 1 then 1 else page in
          let ps := if pageSize <=? 0 then 1 else pageSize in
          dbQueryRow (storm q) (countStatement (table q)) = ScanIntOk n ->
          dbQuery (storm q) (pageStatement queryCol (table q))
            [Some (VInt SzNative ps); Some (VInt SzNative (intMul (intSub pg 1) ps))] =
            QueryRows rows ->
          snd (Paginate q tipe dest page pageSize total totalPages queryCol) =
            Ret (mkPage dest1 n (pageCount n ps) err)))
  /\ (forall (q : Query) (dest : Struct) (queryCol cols : list string) (rows : list Row)
             (vals : list iface) (dest' : list Field),
      dbQuery (storm q) (firstQuery q queryCol).1 (firstQuery q queryCol).2 =
        QueryRows (mkRows cols rows) ->
      firstScan (length cols) rows (replicate (length cols) None) = inr vals ->
      firstFails (Fields dest) cols vals dest' ->
      exists e, snd (First q dest queryCol) = Ret (mkStruct (TypeName dest) dest', Some e)).
Proof.
  split.
  - intros tipe cols before after r dest dest1 vals fname cause Hbefore Hscan Hfail rows err.
    pose proof (selectRows_failing_row tipe cols before after r dest dest1 vals
                  fname cause Hbefore Hscan Hfail) as Hrows.
    split.
    + intros q queryCol Hq. unfold Select.
      destruct (selectQuery q queryCol) as [query args]. simpl in Hq. rewrite Hq.
      simpl. exact Hrows.
    + intros q page pageSize total totalPages n queryCol pg ps Hcount Hq.
      unfold Paginate. fold pg. fold ps. rewrite Hcount, Hq. simpl.
      rewrite Hrows. reflexivity.
  - intros q dest queryCol cols rows vals dest' Hq Hscan
      (pre & col & post & s & fname & k & field' & cause & -> & Hpre & Hfail & ->).
    exists cause. unfold First.
    destruct (firstQuery q queryCol) as [query args]. simpl in Hq. rewrite Hq.
    simpl. rewrite Hscan. simpl.
    rewrite firstAssign_app, Hpre. simpl (0 + _)%nat.
    rewrite (firstAssign_stops _ _ _ _ _ _ _ _ _ _ Hfail). reflexivity.
Qed.

Lemma coercion_failure_aborts_row_witness :
  snd (Select (From mistyped someUser) userType [] []) =
    Ret ([firstUser], Some "error setting field Name: cannot convert int64 to string").
Proof.
  refine (proj1 (proj1 coercion_failure_aborts_row userType
            ["id"; "name_user"; "email_user"]
            [RowValues [Some (VInt Sz64 1); Some (VString "aji");
                        Some (VString "aji@handsome.com")]]
            [RowValues [Some (VInt Sz64 3); Some (VString "dikha");
                        Some (VString "dikha@gmail.com")]]
            (RowValues [Some (VInt Sz64 2); Some (VInt Sz64 5); Some (VString "x@y.z")])
            [] [firstUser]
            [Some (VInt Sz64 2); Some (VInt Sz64 5); Some (VString "x@y.z")]
            "Name" "cannot convert int64 to string"
            eq_refl eq_refl _)
          (From mistyped someUser) [] eq_refl).
  exists ["id"], "name_user", ["email_user"],
    [mkField "ID" (Some "pk") (VInt SzNative 2);
     mkField "Name" (Some "column:name_user") (VString "");
     mkField "Email" (Some "column:email_user") (VString "")],
    1%nat, (mkField "Name" (Some "column:name_user") (VString "")).
  split; [reflexivity|]. split; [vm_compute; reflexivity|].
  split; [vm_compute; reflexivity|]. split; [reflexivity|].
  exists (mkField "Name" (Some "column:name_user") (VString "")), (Some (VInt Sz64 5)).
  repeat split.
Defined.

(** C7 as stated fails: the error [Select] returns names the struct field
    [Name], not the column [name_user], and the error [First] returns names
    neither. *)
Lemma coercion_error_without_column_name :
  (exists e,
      snd (Select (From mistyped someUser) userType [] []) = Ret ([firstUser], Some e)
      /\ e = "error setting field Name: cannot convert int64 to string"
      /\ Contains e "name_user" = false)
  /\ (exists dest' e,
      snd (First (From mistypedOne someUser) someUser []) = Ret (dest', Some e)
      /\ e = "cannot convert int64 to string"
      /\ Contains e "name_user" = false).
Proof.
  split.
  - eexists. split; [vm_compute; reflexivity|]. split; reflexivity.
  - eexists. eexists. split; [vm_compute; reflexivity|]. split; reflexivity.
Qed.

(** ** Paginate: page count and offset *)


(** *** The number of binary digits of a mantissa *)

Lemma digits2_size (p : positive) : digits2_pos p = Pos.size p.
Proof. induction p; simpl; congruence. Qed.

Lemma digits_bounds (p : positive) :
  2 ^ (Z.pos (digits2_pos p) - 1) <= Z.pos p < 2 ^ Z.pos (digits2_pos p).
Proof.
  rewrite digits2_size.
  pose proof (Pos.size_gt p) as Hgt. pose proof (Pos.size_le p) as Hle.
  split.
  - assert (H : (2 ^ Pos.size p <= p~0)%positive) by exact Hle.
    apply Pos2Z.pos_le_pos in H. rewrite Pos2Z.inj_pow in H.
    change (Z.pos p~0) with (2 * Z.pos p) in H.
    replace (Z.pos (Pos.size p)) with (Z.pos (Pos.size p) - 1 + 1) in H by lia.
    rewrite Z.pow_add_r in H by lia. lia.
  - apply Pos2Z.pos_lt_pos in Hgt. rewrite Pos2Z.inj_pow in Hgt. exact Hgt.
Qed.

Lemma digits_unique (p : positive) (d : Z) :
  2 ^ (d - 1) <= Z.pos p < 2 ^ d -> Z.pos (digits2_pos p) = d.
Proof.
  intros [Hlo Hhi]. pose proof (digits_bounds p) as [Hlo' Hhi'].
  assert (0 < d). { destruct (Z.ltb_spec 0 d); [lia|]. rewrite Z.pow_neg_r in Hlo by lia.
    assert (2 ^ d <= 2 ^ 0) by (apply Z.pow_le_mono_r; lia). simpl in *. lia. }
  destruct (Z.lt_trichotomy (Z.pos (digits2_pos p)) d) as [Hlt|[Heq|Hgt]]; [|exact Heq|].
  - assert (2 ^ Z.pos (digits2_pos p) <= 2 ^ (d - 1)) by (apply Z.pow_le_mono_r; lia). lia.
  - assert (2 ^ d <= 2 ^ (Z.pos (digits2_pos p) - 1)) by (apply Z.pow_le_mono_r; lia). lia.
Qed.

Lemma digits_small (p : positive) :
  Z.pos p < 2 ^ 53 -> 1 <= Z.pos (digits2_pos p) <= 53.
Proof.
  intros Hp. pose proof (digits_bounds p) as [Hlo _]. split; [lia|].
  destruct (Z.leb_spec (Z.pos (digits2_pos p)) 53); [lia|].
  assert (2 ^ 53 <= 2 ^ (Z.pos (digits2_pos p) - 1)) by (apply Z.pow_le_mono_r; lia).
  lia.
Qed.

Lemma iter_xO (p n : positive) : Z.pos (Pos.iter xO p n) = Z.pos p * 2 ^ Z.pos n.
Proof.
  revert p. induction n using Pos.peano_ind; intros p.
  - simpl. lia.
  - rewrite Pos.iter_succ. rewrite Pos2Z.inj_succ, Z.pow_succ_r by lia.
    change (Z.pos (Pos.iter xO p n)~0) with (2 * Z.pos (Pos.iter xO p n)).
    rewrite IHn. lia.
Qed.


(** *** Conversion of integers below 2^53: exact *)

Lemma fexp53 (e : Z) : -1021 <= e -> fexp 53 1024 e = e - 53.
Proof. intros H. unfold fexp, emin. lia. Qed.

(** A 53-bit mantissa with an exponent in range is left as it is. *)
Lemma binary_round_aux_exact (s : bool) (m : positive) (e : Z) :
  Z.pos (digits2_pos m) = 53 -> -1074 <= e <= 971 ->
  binary_round_aux 53 1024 s (Z.pos m) e loc_Exact = S754_finite s m e.
Proof.
  intros Hd He.
  unfold binary_round_aux, shr_fexp. unfold Zdigits2. rewrite Hd.
  rewrite fexp53 by lia.
  replace (53 + e - 53 - e) with 0 by lia.
  cbn [shr shr_record_of_loc loc_of_shr_record shr_m round_nearest_even].
  unfold Zdigits2. rewrite Hd. rewrite fexp53 by lia.
  replace (53 + e - 53 - e) with 0 by lia.
  cbn [shr shr_record_of_loc shr_m].
  replace (e <=? 1024 - 53) with true by (symmetry; apply Z.leb_le; lia).
  reflexivity.
Qed.

(** [float64(z)] is exact below 2^53. *)
Lemma float64_of_int_small (p : positive) :
  Z.pos p < 2 ^ 53 ->
  let d := Z.pos (digits2_pos p) in
  exists m : positive,
    float64_of_int (Z.pos p) = S754_finite false m (d - 53)
    /\ Z.pos m = Z.pos p * 2 ^ (53 - d)
    /\ Z.pos (digits2_pos m) = 53.
Proof.
  intros Hp d.
  pose proof (digits_bounds p) as [Hlo Hhi]. fold d in Hlo, Hhi.
  pose proof (digits_small p ltac:(lia)) as Hd. fold d in Hd.
  unfold float64_of_int, binary_normalize, binary_round.
  fold d. rewrite fexp53 by lia.
  unfold shl_align.
  destruct (Z.eq_dec d 53) as [Hd53|Hd53].
  - exists p. rewrite Hd53. change (53 + 0 - 53 - 0) with 0. cbv iota beta.
    rewrite binary_round_aux_exact by (fold d; lia).
    split; [reflexivity|]. split; [lia|exact Hd53].
  - destruct (d + 0 - 53 - 0) as [|k|k] eqn:Hk; try lia.
    exists (Pos.iter xO p k).
    assert (Hm : Z.pos (Pos.iter xO p k) = Z.pos p * 2 ^ (53 - d)).
    { rewrite iter_xO. f_equal. f_equal. lia. }
    assert (Hdm : Z.pos (digits2_pos (Pos.iter xO p k)) = 53).
    { apply digits_unique. rewrite Hm. 
      replace (2 ^ (53 - 1)) with (2 ^ (d - 1) * 2 ^ (53 - d)) by (rewrite <- Z.pow_add_r by lia; f_equal; lia).
      replace (2 ^ 53) with (2 ^ d * 2 ^ (53 - d)) by (rewrite <- Z.pow_add_r by lia; f_equal; lia).
      assert (0 < 2 ^ (53 - d)) by (apply Z.pow_pos_nonneg; lia). nia. }
    rewrite binary_round_aux_exact by (try exact Hdm; lia).
    split; [f_equal; lia|]. split; [exact Hm|exact Hdm].
Qed.


(** *** Rounding a quotient of 53 or 54 bits to nearest, ties to even *)

Lemma loc_of_record_of_loc (m : Z) (l : location) :
  loc_of_shr_record (shr_record_of_loc m l) = l.
Proof. destruct l as [|[]]; reflexivity. Qed.

Lemma shr_m_record_of_loc (m : Z) (l : location) :
  shr_m (shr_record_of_loc m l) = m.
Proof. destruct l as [|[]]; reflexivity. Qed.

Lemma Zdigits2_53 (m : Z) : 2 ^ 52 <= m < 2 ^ 53 -> Zdigits2 m = 53.
Proof.
  intros H. destruct m as [|p|p]; try lia. simpl. apply digits_unique. exact H.
Qed.

Lemma Zdigits2_54 (m : Z) : 2 ^ 53 <= m < 2 ^ 54 -> Zdigits2 m = 54.
Proof.
  intros H. destruct m as [|p|p]; try lia. simpl. apply digits_unique. exact H.
Qed.

(** The second half of [binary_round_aux]: a rounded mantissa that reached
    2^53 is brought back to 53 bits. *)
Lemma round_finish (m0 e : Z) :
  2 ^ 52 <= m0 <= 2 ^ 53 -> -1074 <= e <= 970 ->
  (let '(mrs, e2) := shr_fexp 53 1024 m0 e loc_Exact in
   match shr_m mrs with
   | Z0 => S754_zero false
   | Z.pos m => if e2 <=? 1024 - 53 then S754_finite false m e2 else S754_infinity false
   | Z.neg _ => S754_nan
   end) = renorm m0 e.
Proof.
  intros Hm He. unfold renorm, shr_fexp.
  destruct (Z.ltb_spec m0 (2 ^ 53)) as [Hlt|Hge].
  - rewrite Zdigits2_53 by lia. rewrite fexp53 by lia.
    replace (53 + e - 53 - e) with 0 by lia.
    cbn [shr shr_record_of_loc shr_m].
    destruct m0 as [|p|p]; try lia.
    replace (e <=? 1024 - 53) with true by (symmetry; apply Z.leb_le; lia).
    reflexivity.
  - assert (m0 = 2 ^ 53) as -> by lia.
    rewrite Zdigits2_54 by lia. rewrite fexp53 by lia.
    replace (54 + e - 53 - e) with 1 by lia.
    cbn [shr shr_record_of_loc shr_m SpecFloat.iter_pos].
    replace (e + 1 <=? 1024 - 53) with true by (symmetry; apply Z.leb_le; lia).
    reflexivity.
Qed.

(** [binary_round_aux] on a quotient of 53 bits. *)
Lemma binary_round_aux_53 (q e : Z) (l : location) :
  2 ^ 52 <= q < 2 ^ 53 -> -1074 <= e <= 970 ->
  binary_round_aux 53 1024 false q e l = renorm (round_nearest_even q l) e.
Proof.
  intros Hq He. unfold binary_round_aux.
  unfold shr_fexp at 1. rewrite Zdigits2_53 by lia. rewrite fexp53 by lia.
  replace (53 + e - 53 - e) with 0 by lia. cbn [shr].
  rewrite loc_of_record_of_loc, shr_m_record_of_loc.
  apply round_finish; [|lia].
  destruct l as [|[]]; simpl; try lia. destruct (Z.even q); lia.
Qed.

Lemma shr_1_record (q : Z) (l : location) :
  0 < q ->
  shr_m (shr_1 (shr_record_of_loc q l)) = q / 2
  /\ loc_of_shr_record (shr_1 (shr_record_of_loc q l)) = halfLocation q l.
Proof.
  intros Hq. destruct q as [|p|p]; try lia.
  destruct p as [p|p|]; destruct l as [|[]]; simpl; split; try reflexivity;
    try (apply (Z.div_unique _ 2 _ 1); lia);
    try (apply (Z.div_unique _ 2 _ 0); lia).
Qed.

(** [binary_round_aux] on a quotient of 54 bits. *)
Lemma binary_round_aux_54 (q e : Z) (l : location) :
  2 ^ 53 <= q < 2 ^ 54 -> -1074 <= e <= 969 ->
  binary_round_aux 53 1024 false q e l =
    renorm (round_nearest_even (q / 2) (halfLocation q l)) (e + 1).
Proof.
  intros Hq He. unfold binary_round_aux.
  unfold shr_fexp at 1. rewrite Zdigits2_54 by lia. rewrite fexp53 by lia.
  replace (54 + e - 53 - e) with 1 by lia. cbn [shr SpecFloat.iter_pos].
  destruct (shr_1_record q l ltac:(lia)) as [-> ->].
  assert (2 ^ 52 <= q / 2 < 2 ^ 53).
  { split; [apply Z.div_le_lower_bound; lia | apply Z.div_lt_upper_bound; lia]. }
  apply round_finish; [|lia].
  destruct (halfLocation q l) as [|[]]; simpl; try lia. destruct (Z.even (q / 2)); lia.
Qed.


(** *** Division of two 53-bit mantissas *)

Lemma new_location_spec (n r : Z) :
  0 < n -> 0 <= r < n ->
  new_location n r = if r =? 0 then loc_Exact else loc_Inexact (2 * r ?= n).
Proof.
  intros Hn Hr. unfold new_location, new_location_even, new_location_odd.
  destruct (Z.even n) eqn:Hev; [reflexivity|].
  destruct (r =? 0); [reflexivity|]. f_equal.
  assert (Hodd : Z.odd n = true) by (rewrite <- Z.negb_even, Hev; reflexivity).
  apply Z.odd_spec in Hodd as [h Hh].
  destruct (Z.compare_spec (2 * r + 1) n), (Z.compare_spec (2 * r) n); try reflexivity; lia.
Qed.

(** The quotient of two 53-bit mantissas, as [float64_div] rounds it: [mt]
    is the quotient cut to 53 bits, at scale [2^k], and the result is [mt]
    or [mt + 1], whichever is nearer. *)
Lemma float64_div_rounds (m1 m2 : positive) (e1 e2 : Z) :
  Z.pos (digits2_pos m1) = 53 -> Z.pos (digits2_pos m2) = 53 ->
  -900 <= e1 - e2 <= 900 ->
  let N := Z.pos m1 * 2 ^ 53 in
  let D := Z.pos m2 in
  exists mt k mr0 : Z,
    (k = 0 \/ k = 1) /\ 2 ^ 52 <= mt < 2 ^ 53 /\
    mt * 2 ^ k * D <= N < (mt + 1) * 2 ^ k * D /\
    ((mr0 = mt /\ 2 * (N - mt * 2 ^ k * D) <= 2 ^ k * D) \/
     (mr0 = mt + 1 /\ 2 ^ k * D <= 2 * (N - mt * 2 ^ k * D))) /\
    float64_div (S754_finite false m1 e1) (S754_finite false m2 e2) =
      renorm mr0 (e1 - e2 - 53 + k).
Proof.
  intros Hd1 Hd2 He N D.
  pose proof (digits_bounds m1) as Hm1. rewrite Hd1 in Hm1.
  pose proof (digits_bounds m2) as Hm2. rewrite Hd2 in Hm2.
  unfold float64_div, SFdiv, SFdiv_core_binary. unfold Zdigits2.
  rewrite Hd1, Hd2. rewrite fexp53 by lia.
  replace (Z.min (53 + e1 - (53 + e2) - 53) (e1 - e2)) with (e1 - e2 - 53) by lia.
  replace (e1 - e2 - (e1 - e2 - 53)) with 53 by lia.
  cbv iota. rewrite Z.shiftl_mul_pow2 by lia. fold N. fold D.
  pose proof (Z_div_mod N D ltac:(lia)) as Hdiv.
  destruct (Z.div_eucl N D) as [q r]. destruct Hdiv as [HN Hr].
  simpl xorb.
  assert (HNlo : 2 ^ 105 <= N) by (unfold N; change (2 ^ 105) with (2 ^ 52 * 2 ^ 53); nia).
  assert (HNhi : N < 2 ^ 106) by (unfold N; change (2 ^ 106) with (2 ^ 53 * 2 ^ 53); nia).
  assert (HD : 2 ^ 52 <= D < 2 ^ 53) by (unfold D; simpl in Hm2; lia).
  assert (Hq : 2 ^ 52 <= q < 2 ^ 54).
  { split.
    - destruct (Z.leb_spec (2 ^ 52) q); [lia|].
      assert (D * q + r < D * 2 ^ 52) by nia.
      change (2 ^ 105) with (2 ^ 53 * 2 ^ 52) in HNlo. nia.
    - destruct (Z.ltb_spec q (2 ^ 54)); [lia|].
      assert (D * 2 ^ 54 <= D * q) by nia.
      change (2 ^ 106) with (2 ^ 52 * 2 ^ 54) in HNhi. nia. }
  rewrite (new_location_spec D r) by lia.
  destruct (Z.ltb_spec q (2 ^ 53)) as [Hq53|Hq54].
  - rewrite binary_round_aux_53 by lia.
    exists q, 0, (round_nearest_even q (if r =? 0 then loc_Exact else loc_Inexact (2 * r ?= D))).
    rewrite Z.add_0_r. change (2 ^ 0) with 1. rewrite !Z.mul_1_r, Z.mul_1_l.
    split; [left; reflexivity|]. split; [lia|]. split; [nia|].
    split; [|reflexivity].
    destruct (Z.eqb_spec r 0) as [Hr0|Hr0]; [left; simpl; split; [reflexivity|nia]|].
    destruct (Z.compare_spec (2 * r) D); simpl.
    + destruct (Z.even q); [left|right]; split; try reflexivity; nia.
    + left. split; [reflexivity|nia].
    + right. split; [reflexivity|nia].
  - rewrite binary_round_aux_54 by lia.
    pose proof (Z.div_mod q 2 ltac:(lia)) as Hq2.
    pose proof (Z.mod_pos_bound q 2 ltac:(lia)) as Hb.
    assert (Hmt : 2 ^ 52 <= q / 2 < 2 ^ 53).
    { split; [apply Z.div_le_lower_bound; lia | apply Z.div_lt_upper_bound; lia]. }
    exists (q / 2), 1,
      (round_nearest_even (q / 2)
         (halfLocation q (if r =? 0 then loc_Exact else loc_Inexact (2 * r ?= D)))).
    change (2 ^ 1) with 2.
    split; [right; reflexivity|]. split; [lia|]. split; [nia|].
    split; [|reflexivity].
    unfold halfLocation. pose proof (Zmod_odd q) as Hodd.
    destruct (Z.odd q).
    + rewrite Hodd in Hq2.
      destruct (Z.eqb_spec r 0) as [Hr0|Hr0]; simpl.
      * destruct (Z.even (q / 2)); [left|right]; split; try reflexivity; nia.
      * right. split; [reflexivity|nia].
    + rewrite Hodd in Hq2.
      destruct (Z.eqb_spec r 0) as [Hr0|Hr0]; simpl.
      * left. split; [reflexivity|nia].
      * left. split; [reflexivity|nia].
Qed.


(** *** Ceiling and conversion back to an integer *)

Lemma int_float_roundtrip (c : Z) :
  0 <= c <= 2 ^ 53 -> int64_of_float64 (float64_of_int c) = c.
Proof.
  intros Hc.
  destruct (Z.eq_dec c 0) as [->|Hc0]; [reflexivity|].
  destruct (Z.eq_dec c (2 ^ 53)) as [->|Hc53]; [reflexivity|].
  destruct c as [|p|p]; try lia.
  destruct (float64_of_int_small p ltac:(lia)) as (m & -> & Hm & _).
  pose proof (digits_bounds p) as [Hlo Hhi].
  set (d := Z.pos (digits2_pos p)) in *.
  pose proof (digits_small p ltac:(lia)) as Hd. fold d in Hd.
  unfold int64_of_float64, truncate, cond_Zopp, minInt64.
  assert (Ht : (if 0 <=? d - 53 then Z.pos m * 2 ^ (d - 53)
                else Z.pos m / 2 ^ (- (d - 53))) = Z.pos p).
  { destruct (Z.leb_spec 0 (d - 53)).
    - assert (Hd53 : d = 53) by lia. rewrite Hm, Hd53. simpl. lia.
    - rewrite Hm. replace (- (d - 53)) with (53 - d) by lia.
      apply Z.div_mul. apply Z.pow_nonzero; lia. }
  rewrite Ht.
  destruct (Z.leb_spec (- 2 ^ 63) (Z.pos p)); [|lia].
  destruct (Z.ltb_spec (Z.pos p) (2 ^ 63)); [reflexivity|lia].
Qed.

Lemma int_of_Ceil_finite (p : positive) (e c : Z) :
  ceilValue (Z.pos p) e = c -> 0 <= c <= 2 ^ 53 ->
  int64_of_float64 (Ceil (S754_finite false p e)) = c.
Proof.
  unfold ceilValue, Ceil. intros Hcv Hc.
  destruct (Z.leb_spec 0 e).
  - unfold int64_of_float64, truncate, cond_Zopp, minInt64.
    destruct (Z.leb_spec 0 e); [|lia]. rewrite Hcv.
    destruct (Z.leb_spec (- 2 ^ 63) c); [|lia].
    destruct (Z.ltb_spec c (2 ^ 63)); [reflexivity|lia].
  - unfold cond_Zopp. rewrite Hcv. apply int_float_roundtrip, Hc.
Qed.

Lemma ceilValue_renorm (e : Z) :
  ceilValue (2 ^ 52) (e + 1) = ceilValue (2 ^ 53) e.
Proof.
  unfold ceilValue.
  destruct (Z.leb_spec 0 e), (Z.leb_spec 0 (e + 1)); try lia.
  - rewrite Z.pow_add_r by lia. lia.
  - replace e with (-1) by lia. reflexivity.
  - replace (- e) with (1 + (- (e + 1))) by lia. rewrite Z.pow_add_r by lia.
    change (- 2 ^ 53) with (2 ^ 1 * - 2 ^ 52).
    rewrite Z.div_mul_cancel_l; [reflexivity| |discriminate].
    apply Z.pow_nonzero; lia.
Qed.

Lemma int_of_Ceil_renorm (mr0 e c : Z) :
  2 ^ 52 <= mr0 <= 2 ^ 53 ->
  ceilValue mr0 e = c -> 0 <= c <= 2 ^ 53 ->
  int64_of_float64 (Ceil (renorm mr0 e)) = c.
Proof.
  intros Hm Hcv Hc. unfold renorm.
  destruct (Z.ltb_spec mr0 (2 ^ 53)).
  - destruct mr0 as [|p|p]; try lia. apply int_of_Ceil_finite; assumption.
  - assert (mr0 = 2 ^ 53) as -> by lia.
    apply int_of_Ceil_finite; [|exact Hc].
    rewrite <- Hcv. apply ceilValue_renorm.
Qed.

Lemma ceil_div_char (m S c : Z) :
  0 < S -> (c - 1) * S < m <= c * S -> - ((- m) / S) = c.
Proof.
  intros HS Hm.
  rewrite <- (Z.div_unique (- m) S (- c) (c * S - m)); lia.
Qed.

Lemma ceilValue_char (m s c : Z) :
  0 <= s -> (c - 1) * 2 ^ s < m <= c * 2 ^ s -> ceilValue m (- s) = c.
Proof.
  intros Hs Hm. unfold ceilValue.
  destruct (Z.leb_spec 0 (- s)).
  - replace s with 0 in * by lia. simpl in *. lia.
  - rewrite Z.opp_involutive. apply ceil_div_char; [|exact Hm].
    apply Z.pow_pos_nonneg; lia.
Qed.

(** Rounding the quotient [x / y] to the nearest multiple of [1 / S] does
    not move it across an integer when [x] is at most 2^53 and the quotient
    has at least 53 bits at that scale. *)
Lemma rounding_keeps_ceiling (x y c mt mr0 S : Z) :
  1 <= y -> 1 <= x <= 2 ^ 53 -> 1 <= S -> 2 ^ 52 <= mt ->
  mt * y <= x * S < (mt + 1) * y ->
  (mr0 = mt /\ 2 * (x * S - mt * y) <= y) \/ (mr0 = mt + 1 /\ y <= 2 * (x * S - mt * y)) ->
  (c - 1) * y < x <= c * y ->
  (c - 1) * S < mr0 <= c * S.
Proof.
  intros Hy Hx HS Hmt Hq Hr Hc.
  assert (Hc1 : 1 <= c) by nia.
  assert (Hup : mt <= c * S) by nia.
  assert (Hlo : (c - 1) * S <= mt) by nia.
  destruct Hr as [[-> Hdown]|[-> Hupc]].
  - split; [|exact Hup].
    destruct (Z.eq_dec ((c - 1) * S) mt) as [Heq|Hne]; [|lia].
    exfalso.
    assert (2 * S <= y) by nia.
    assert (1 <= c - 1) by nia.
    nia.
  - split; [lia|].
    destruct (Z.eq_dec mt (c * S)) as [Heq|Hne]; [|lia].
    exfalso. nia.
Qed.


(** *** Conversion of integers from 2^53 on: rounded *)

Lemma shr_1_m (mrs : shr_record) :
  0 <= shr_m mrs -> shr_m (shr_1 mrs) = shr_m mrs / 2.
Proof.
  destruct mrs as [m r s]. simpl. intros Hm.
  destruct m as [|[p|p|]|]; simpl; try lia; try reflexivity.
  - apply (Z.div_unique _ 2 _ 1); lia.
  - apply (Z.div_unique _ 2 _ 0); lia.
Qed.

Lemma shr_m_iter (n : positive) :
  forall mrs : shr_record,
    0 <= shr_m mrs ->
    shr_m (SpecFloat.iter_pos shr_1 n mrs) = shr_m mrs / 2 ^ Z.pos n.
Proof.
  induction n as [n IH|n IH|]; intros mrs Hm; cbn [SpecFloat.iter_pos].
  - assert (H1 : 0 <= shr_m (shr_1 mrs)).
    { rewrite shr_1_m by exact Hm. apply Z.div_pos; lia. }
    assert (H2 : 0 <= shr_m (SpecFloat.iter_pos shr_1 n (shr_1 mrs))).
    { rewrite IH by exact H1. apply Z.div_pos; lia. }
    rewrite IH by exact H2. rewrite IH by exact H1. rewrite shr_1_m by exact Hm.
    rewrite !Z.div_div by lia. f_equal.
    replace (Z.pos n~1) with (1 + Z.pos n + Z.pos n) by lia.
    rewrite !Z.pow_add_r by lia. lia.
  - assert (H2 : 0 <= shr_m (SpecFloat.iter_pos shr_1 n mrs)).
    { rewrite IH by exact Hm. apply Z.div_pos; lia. }
    rewrite IH by exact H2. rewrite IH by exact Hm.
    rewrite !Z.div_div by lia. f_equal.
    replace (Z.pos n~0) with (Z.pos n + Z.pos n) by lia.
    rewrite !Z.pow_add_r by lia. lia.
  - apply shr_1_m, Hm.
Qed.

(** [float64(z)] from 2^53 on: a 53-bit mantissa with a positive exponent. *)
Lemma float64_of_int_big (p : positive) :
  2 ^ 53 <= Z.pos p < 2 ^ 63 ->
  exists (m : positive) (e : Z),
    float64_of_int (Z.pos p) = S754_finite false m e
    /\ Z.pos (digits2_pos m) = 53 /\ 1 <= e <= 11.
Proof.
  intros Hp.
  pose proof (digits_bounds p) as [Hlo Hhi].
  set (d := Z.pos (digits2_pos p)) in *.
  assert (Hd : 54 <= d <= 63).
  { split.
    - destruct (Z.leb_spec 54 d); [lia|].
      assert (2 ^ d <= 2 ^ 53) by (apply Z.pow_le_mono_r; lia). lia.
    - destruct (Z.leb_spec d 63); [lia|].
      assert (2 ^ 63 <= 2 ^ (d - 1)) by (apply Z.pow_le_mono_r; lia). lia. }
  unfold float64_of_int, binary_normalize, binary_round.
  fold d. rewrite fexp53 by lia. unfold shl_align.
  destruct (d + 0 - 53 - 0) as [|n|n] eqn:Hn; try lia.
  unfold binary_round_aux. unfold shr_fexp at 1. unfold Zdigits2. fold d.
  rewrite fexp53 by lia. rewrite Hn. cbn [shr].
  set (mrs := SpecFloat.iter_pos shr_1 n (shr_record_of_loc (Z.pos p) loc_Exact)).
  assert (Ht : shr_m mrs = Z.pos p / 2 ^ (d - 53)).
  { unfold mrs. rewrite shr_m_iter by (simpl; lia). simpl shr_m. f_equal. f_equal. lia. }
  assert (Htb : 2 ^ 52 <= shr_m mrs < 2 ^ 53).
  { rewrite Ht.
    assert (0 < 2 ^ (d - 53)) by (apply Z.pow_pos_nonneg; lia).
    assert (H52 : 2 ^ (d - 1) = 2 ^ 52 * 2 ^ (d - 53))
      by (rewrite <- Z.pow_add_r by lia; f_equal; lia).
    assert (H53 : 2 ^ d = 2 ^ 53 * 2 ^ (d - 53))
      by (rewrite <- Z.pow_add_r by lia; f_equal; lia).
    split; [apply Z.div_le_lower_bound; lia | apply Z.div_lt_upper_bound; lia]. }
  set (mr := round_nearest_even (shr_m mrs) (loc_of_shr_record mrs)).
  assert (Hmr : 2 ^ 52 <= mr <= 2 ^ 53).
  { unfold mr. destruct (loc_of_shr_record mrs) as [|[]]; simpl; try lia.
    destruct (Z.even (shr_m mrs)); lia. }
  rewrite (round_finish mr (0 + Z.pos n)) by lia.
  unfold renorm. destruct (Z.ltb_spec mr (2 ^ 53)).
  - exists (Z.to_pos mr), (0 + Z.pos n). split; [reflexivity|]. split; [|lia].
    apply digits_unique. rewrite Z2Pos.id by lia. lia.
  - exists (Z.to_pos (2 ^ 52)), (0 + Z.pos n + 1). split; [reflexivity|].
    split; [reflexivity|lia].
Qed.

(** [float64(x)] for a count up to 2^53, in the form the quotient needs. *)
Lemma float64_of_count (x : Z) :
  1 <= x <= 2 ^ 53 ->
  exists (m : positive) (A : Z),
    float64_of_int x = S754_finite false m (53 - A)
    /\ Z.pos (digits2_pos m) = 53
    /\ Z.pos m * 2 ^ 53 = x * 2 ^ A /\ 52 <= A <= 105.
Proof.
  intros Hx.
  destruct (Z.eq_dec x (2 ^ 53)) as [->|Hne].
  - exists (Z.to_pos (2 ^ 52)), 52. repeat split; try reflexivity; lia.
  - destruct x as [|p|p]; try lia.
    destruct (float64_of_int_small p ltac:(lia)) as (m & Hf & Hm & Hdm).
    pose proof (digits_bounds p) as [Hlo Hhi].
    set (d := Z.pos (digits2_pos p)) in *.
    pose proof (digits_small p ltac:(lia)) as Hd. fold d in Hd.
    exists m, (106 - d). split; [rewrite Hf; f_equal; lia|]. split; [exact Hdm|].
    split; [|lia]. rewrite Hm.
    replace (106 - d) with (53 - d + 53) by lia. rewrite Z.pow_add_r by lia. lia.
Qed.


(** *** The page count is the ceiling of the quotient *)

Lemma pageCount_small_pageSize (x c : Z) (py : positive) :
  1 <= x <= 2 ^ 53 -> Z.pos py < 2 ^ 53 ->
  ~ (x = 2 ^ 53 /\ Z.pos py = 1) ->
  (c - 1) * Z.pos py < x <= c * Z.pos py ->
  pageCount x (Z.pos py) = c.
Proof.
  intros Hx Hy Hnot Hc.
  destruct (float64_of_count x Hx) as (m1 & A & Hf1 & Hd1 & Hm1 & HA).
  destruct (float64_of_int_small py Hy) as (m2 & Hf2 & Hm2 & Hd2).
  pose proof (digits_bounds py) as [Hlo Hhi].
  set (dy := Z.pos (digits2_pos py)) in *.
  pose proof (digits_small py Hy) as Hdy. fold dy in Hdy.
  pose proof (digits_bounds m1) as Hb1. rewrite Hd1 in Hb1.
  unfold pageCount. rewrite Hf1, Hf2.
  destruct (float64_div_rounds m1 m2 (53 - A) (dy - 53) Hd1 Hd2 ltac:(lia))
    as (mt & k & mr0 & Hk & Hmt & Hq & Hr & ->).
  assert (Hc1 : 1 <= c <= 2 ^ 53) by nia.
  apply int_of_Ceil_renorm; [destruct Hr as [[-> _]|[-> _]]; lia| |lia].
  set (b := 53 - dy) in *.
  set (s := A - b - k).
  replace (53 - A - (dy - 53) - 53 + k) with (- s) by (unfold s, b; lia).
  assert (Hs : 0 <= s).
  { destruct (Z.leb_spec 0 s); [lia|]. exfalso. apply Hnot.
    assert (A = 52) by (unfold s, b in *; lia).
    assert (dy = 1) by (unfold s, b in *; lia).
    subst A. split.
    - change (2 ^ 53) with (2 * 2 ^ 52) in Hm1 at 1. simpl in Hb1. lia.
    - replace dy with 1 in Hhi by lia. simpl in Hhi. lia. }
  apply ceilValue_char; [exact Hs|].
  assert (HS : 0 < 2 ^ s) by (apply Z.pow_pos_nonneg; lia).
  assert (HP : 0 < 2 ^ (b + k)) by (apply Z.pow_pos_nonneg; unfold b; lia).
  assert (HAeq : 2 ^ A = 2 ^ s * 2 ^ (b + k)).
  { rewrite <- Z.pow_add_r by (unfold b; lia). f_equal. unfold s. lia. }
  assert (HPeq : 2 ^ k * 2 ^ b = 2 ^ (b + k)).
  { rewrite <- Z.pow_add_r by (unfold b; lia). f_equal. lia. }
  rewrite Hm1, Hm2 in Hq, Hr. fold b in Hq, Hr.
  set (S := 2 ^ s) in *. set (P := 2 ^ (b + k)) in *.
  assert (HN : x * 2 ^ A = (x * S) * P) by (rewrite HAeq; ring).
  assert (HD : forall t, t * 2 ^ k * (Z.pos py * 2 ^ b) = (t * Z.pos py) * P).
  { intros t. rewrite <- HPeq. ring. }
  assert (HD1 : 2 ^ k * (Z.pos py * 2 ^ b) = Z.pos py * P).
  { rewrite <- HPeq. ring. }
  rewrite HN, !HD in Hq. rewrite HN, !HD, !HD1 in Hr.
  apply (rounding_keeps_ceiling x (Z.pos py) c mt mr0 S); try lia.
  - split; [apply (Z.mul_le_mono_pos_r _ _ P); lia | apply (Z.mul_lt_mono_pos_r P); lia].
  - destruct Hr as [[-> Hdn]|[-> Hup]]; [left|right]; split; try reflexivity.
    + apply (Z.mul_le_mono_pos_r _ _ P); [lia|]. lia.
    + apply (Z.mul_le_mono_pos_r _ _ P); [lia|]. lia.
Qed.

Lemma pageCount_big_pageSize (x : Z) (py : positive) :
  1 <= x <= 2 ^ 53 -> 2 ^ 53 <= Z.pos py < 2 ^ 63 ->
  pageCount x (Z.pos py) = 1.
Proof.
  intros Hx Hy.
  destruct (float64_of_count x Hx) as (m1 & A & Hf1 & Hd1 & Hm1 & HA).
  destruct (float64_of_int_big py Hy) as (m2 & e2 & Hf2 & Hd2 & He2).
  pose proof (digits_bounds m2) as Hb2. rewrite Hd2 in Hb2.
  unfold pageCount. rewrite Hf1, Hf2.
  destruct (float64_div_rounds m1 m2 (53 - A) e2 Hd1 Hd2 ltac:(lia))
    as (mt & k & mr0 & Hk & Hmt & Hq & Hr & ->).
  apply int_of_Ceil_renorm; [destruct Hr as [[-> _]|[-> _]]; lia| |lia].
  set (s := A + e2 - k).
  replace (53 - A - e2 - 53 + k) with (- s) by (unfold s; lia).
  assert (Hs : 0 <= s) by (unfold s; lia).
  apply ceilValue_char; [exact Hs|].
  assert (HK : 1 <= 2 ^ k <= 2) by (destruct Hk as [->| ->]; simpl; lia).
  assert (HE : 2 <= 2 ^ e2).
  { change 2 with (2 ^ 1) at 1. apply Z.pow_le_mono_r; lia. }
  assert (HSeq : 2 ^ s * 2 ^ k = 2 ^ A * 2 ^ e2).
  { rewrite <- !Z.pow_add_r by lia. f_equal. unfold s. lia. }
  assert (HA0 : 0 < 2 ^ A) by (apply Z.pow_pos_nonneg; lia).
  rewrite Hm1 in Hq, Hr.
  set (S := 2 ^ s) in *. set (K := 2 ^ k) in *. set (E := 2 ^ e2) in *.
  set (SA := 2 ^ A) in *. set (D := Z.pos m2) in *.
  simpl in Hb2.
  assert (H1 : x * SA <= D * E * SA) by nia.
  assert (H2 : mt * K * D <= D * (S * K)) by (rewrite HSeq; nia).
  assert (H3 : mt <= S) by nia.
  destruct Hr as [[-> Hdn]|[-> Hup]]; [lia|].
  split; [lia|].
  destruct (Z.eq_dec mt S) as [Heq|Hne]; [|lia].
  exfalso. subst mt.
  assert (x * SA = S * K * D) by nia.
  nia.
Qed.

Lemma pageCount_zero (y : Z) : 1 <= y < 2 ^ 63 -> pageCount 0 y = 0.
Proof.
  intros Hy. destruct y as [|py|py]; try lia.
  assert (Hfin : exists m e, float64_of_int (Z.pos py) = S754_finite false m e).
  { destruct (Z.ltb_spec (Z.pos py) (2 ^ 53)).
    - destruct (float64_of_int_small py ltac:(lia)) as (m & -> & _). eauto.
    - destruct (float64_of_int_big py ltac:(lia)) as (m & e & -> & _). eauto. }
  destruct Hfin as (m & e & Hf). unfold pageCount. rewrite Hf. reflexivity.
Qed.

(** [pageCount total pageSize] is the ceiling of [total / pageSize]. *)
Lemma pageCount_ceiling (total pageSize c : Z) :
  0 <= total <= 2 ^ 53 -> 1 <= pageSize < 2 ^ 63 ->
  (c - 1) * pageSize < total <= c * pageSize ->
  pageCount total pageSize = c.
Proof.
  intros Ht Hp Hc.
  destruct (Z.eq_dec total 0) as [->|Ht0].
  - rewrite pageCount_zero by exact Hp. nia.
  - destruct pageSize as [|py|py]; try lia.
    destruct (Z.ltb_spec (Z.pos py) (2 ^ 53)) as [Hsmall|Hbig].
    + destruct (Z.eq_dec total (2 ^ 53)) as [Ht53|Ht53].
      * destruct (Z.eq_dec (Z.pos py) 1) as [Hp1|Hp1].
        -- rewrite Ht53, Hp1 in *. assert (c = 2 ^ 53) as -> by lia. reflexivity.
        -- apply pageCount_small_pageSize; try lia.
      * apply pageCount_small_pageSize; try lia.
    + rewrite pageCount_big_pageSize by lia. nia.
Qed.

Lemma wrapS_id (z : Z) : - 2 ^ 63 <= z < 2 ^ 63 -> wrapS 64 z = z.
Proof.
  intros Hz. unfold wrapS. change (2 ^ (64 - 1)) with (2 ^ 63).
  rewrite Z.mod_small; [lia|]. change (2 ^ 64) with (2 * 2 ^ 63). lia.
Qed.

(** C4 (amended).  [Paginate] treats a page below 1 as 1 and a page size
    of 0 or less as 1.  For a count between 0 and 2^53 the total number of
    pages it stores is the ceiling of the count divided by the clamped page
    size: the least [n] with [total <= n * pageSize].  The OFFSET it passes is
    (clamped page - 1) * clamped page size wrapped to 64 bits, which is that
    product whenever the product fits an [int]. *)
Theorem Paginate_clamps_and_counts
    (q : Query) (tipe : StructType) (dest : list Struct)
    (page pageSize total0 totalPages0 total : Z) (queryCol : list string) :
  dbQueryRow (storm q) (countStatement (table q)) = ScanIntOk total ->
  0 <= total <= 2 ^ 53 ->
  - 2 ^ 63 <= page < 2 ^ 63 ->
  - 2 ^ 63 <= pageSize < 2 ^ 63 ->
  let pg := Z.max page 1 in
  let ps := Z.max pageSize 1 in
  let pages := pageCount total ps in
  let offset := wrapS 64 ((pg - 1) * ps) in
  let args := [Some (VInt SzNative ps); Some (VInt SzNative offset)] in
  ((pages - 1) * ps < total <= pages * ps)
  /\ (- 2 ^ 63 <= (pg - 1) * ps < 2 ^ 63 -> offset = (pg - 1) * ps)
  /\ fst (Paginate q tipe dest page pageSize total0 totalPages0 queryCol) =
       [CallQueryRow (countStatement (table q));
        CallQuery (pageStatement queryCol (table q)) args]
  /\ snd (Paginate q tipe dest page pageSize total0 totalPages0 queryCol) =
       match dbQuery (storm q) (pageStatement queryCol (table q)) args with
       | QueryError err => Ret (mkPage dest total pages (Some err))
       | QueryRows rows =>
           '(dest', err) ← selectRows tipe (Columns rows) (Data rows) dest;
           Ret (mkPage dest' total pages err)
       end.
Proof.
  intros Hcount Htotal Hpage Hsize pg ps pages offset args.
  assert (Hps : 1 <= ps < 2 ^ 63) by (unfold ps; lia).
  assert (Hpg : 1 <= pg < 2 ^ 63) by (unfold pg; lia).
  split.
  - set (c := (total + ps - 1) / ps).
    assert (Hc : (c - 1) * ps < total <= c * ps).
    { pose proof (Z.div_mod (total + ps - 1) ps ltac:(lia)) as Hdm.
      pose proof (Z.mod_pos_bound (total + ps - 1) ps ltac:(lia)) as Hmb.
      fold c in Hdm. nia. }
    unfold pages. rewrite (pageCount_ceiling total ps c Htotal Hps Hc). exact Hc.
  - split; [intros Hfit; apply wrapS_id, Hfit|].
    assert (Hclamp1 : (if page <? 1 then 1 else page) = pg).
    { unfold pg. destruct (Z.ltb_spec page 1); lia. }
    assert (Hclamp2 : (if pageSize <=? 0 then 1 else pageSize) = ps).
    { unfold ps. destruct (Z.leb_spec pageSize 0); lia. }
    assert (Hoff : intMul (intSub pg 1) ps = offset).
    { unfold intMul, intSub, offset. rewrite (wrapS_id (pg - 1)) by lia. reflexivity. }
    unfold Paginate. rewrite Hclamp1, Hclamp2, Hcount, Hoff. fold pages. fold args.
    destruct (dbQuery (storm q) (pageStatement queryCol (table q)) args);
      split; reflexivity.
Qed.

Lemma Paginate_clamps_and_counts_witness :
  fst (Paginate (From (counting 7) someUser) userType [] 0 3 0 0 ["id"]) =
    [CallQueryRow "SELECT COUNT(*) FROM users";
     CallQuery "SELECT id FROM users ORDER BY id LIMIT $1 OFFSET $2"
       [Some (VInt SzNative 3); Some (VInt SzNative 0)]]
  /\ snd (Paginate (From (counting 7) someUser) userType [] 0 3 0 0 ["id"]) =
       Ret (mkPage [] 7 3 None).
Proof.
  exact (proj2 (proj2
    (Paginate_clamps_and_counts (From (counting 7) someUser) userType [] 0 3 0 0 7 ["id"]
       eq_refl ltac:(vm_compute; split; discriminate)
       ltac:(vm_compute; split; [discriminate|reflexivity])
       ltac:(vm_compute; split; [discriminate|reflexivity])))).
Defined.

(** C4 as stated fails.  A count of 2^53 + 1 with page size 1 is stored as
    2^53 pages, one short of the ceiling; and with page 2^62 + 1 and page
    size 4 the product 2^64 does not fit an [int]: the OFFSET passed is 0. *)
Lemma Paginate_beyond_float_precision :
  (exists out,
      snd (Paginate (From (counting (2 ^ 53 + 1)) someUser) userType [] 1 1 0 0 []) = Ret out
      /\ p_total out = 2 ^ 53 + 1
      /\ p_totalPages out = 2 ^ 53
      /\ ~ (p_total out <= p_totalPages out * 1))
  /\ fst (Paginate (From (counting 7) someUser) userType [] (2 ^ 62 + 1) 4 0 0 []) =
       [CallQueryRow "SELECT COUNT(*) FROM users";
        CallQuery "SELECT * FROM users ORDER BY id LIMIT $1 OFFSET $2"
          [Some (VInt SzNative 4); Some (VInt SzNative 0)]].
Proof.
  split.
  - eexists. split; [vm_compute; reflexivity|]. simpl.
    split; [reflexivity|]. split; [reflexivity|]. vm_compute. intros H. apply H. reflexivity.
  - vm_compute. reflexivity.
Qed.

(** * Further properties of the code *)

(** ** Delete, Insert and Update: statements and arguments *)

Lemma deleteLoop_spec (fields : list Field) :
  forall (pkField : string) (pkValue : iface) (paramCount : Z),
    Forall (fun f => IsExported (Name f) = true) (List.filter isPrimary fields) ->
    deleteLoop fields pkField pkValue paramCount =
      Ret ((finalKey fields pkField pkValue).1, (finalKey fields pkField pkValue).2,
           paramCount + Z.of_nat (length (List.filter isPrimary fields))).
Proof.
  induction fields as [|f rest IH]; intros pkField pkValue paramCount Hx.
  - simpl. rewrite Z.add_0_r. reflexivity.
  - unfold finalKey in *. cbn [deleteLoop List.filter] in *. unfold isPrimary in *.
    destruct (Contains (TagGet f) "pk").
    + apply Forall_cons in Hx as [Hf Hx].
      rewrite (Interface_exported f Hf). simpl.
      rewrite (IH _ _ _ Hx). rewrite last_cons. cbn [length].
      replace (paramCount + 1 + Z.of_nat (length (List.filter
                 (fun f0 => Contains (TagGet f0) "pk") rest)))
        with (paramCount + Z.of_nat (S (length (List.filter
                 (fun f0 => Contains (TagGet f0) "pk") rest)))) by lia.
      destruct (last (List.filter _ rest)); reflexivity.
    + apply IH, Hx.
Qed.

(** X1.  On a record with exactly one primary-key field, that field
    exported, and no other field whose tag contains the letters [pk],
    [Delete] sends one statement, [DELETE FROM <table> WHERE <pk> = $1] with
    <pk> the name of the primary-key field, and exactly one argument, the
    value of that field. *)
Theorem Delete_one_key_one_argument (db : DB) (model : Struct) (pk : Field) :
  List.filter pkDirective (Fields model) = [pk] ->
  Forall (fun p => Contains (TagGet p.2) "pk" = false) (nonKeyDeclared (Fields model) 0) ->
  IsExported (Name pk) = true ->
  let q := newline +:+ tab +:+ "DELETE FROM " +:+ ToLower (TypeName model +:+ "s")
             +:+ " WHERE " +:+ Name pk +:+ " = $1" +:+ newline +:+ tab in
  Delete db model = ([CallExec q [Some (Val pk)]], Ret (dbExec db q [Some (Val pk)])).
Proof.
  intros Hpk Hno Hx q.
  rewrite (proj2 (nonKeyDeclared_nonKeyFields _ _ Hno)) in Hpk. unfold Delete.
  rewrite deleteLoop_spec by (rewrite Hpk; repeat constructor; exact Hx).
  unfold finalKey. rewrite Hpk. reflexivity.
Qed.

Lemma Delete_one_key_one_argument_witness :
  Delete acceptAll someUser =
    ([CallExec (newline +:+ tab +:+ "DELETE FROM users WHERE ID = $1" +:+ newline +:+ tab)
        [Some (VInt SzNative 14)]],
     Ret None).
Proof.
  apply (Delete_one_key_one_argument acceptAll someUser
           (mkField "ID" (Some "pk") (VInt SzNative 14)));
    try reflexivity; repeat constructor.
Defined.

(** When no field after position [i] is a key, the non-key fields are all
    the fields, numbered from [i] on. *)
Lemma nonKeyFields_no_key (fields : list Field) :
  forall i : Z,
    Forall (fun f => isPrimary f = false) fields ->
    nonKeyFields fields i = zip (seqZ i (Z.of_nat (length fields))) fields.
Proof.
  induction fields as [|f rest IH]; intros i Hno; [reflexivity|].
  apply Forall_cons in Hno as [Hf Hrest].
  cbn [nonKeyFields length]. rewrite Hf.
  rewrite seqZ_cons by lia. cbn [zip zip_with]. f_equal.
  rewrite (IH _ Hrest). repeat f_equal; lia.
Qed.

Lemma map_zip_seqZ_fst {B : Type} (g : Z -> B) (fields : list Field) (i : Z) :
  map (fun p : Z * Field => g p.1) (zip (seqZ i (Z.of_nat (length fields))) fields) =
    map g (seqZ i (Z.of_nat (length fields))).
Proof.
  transitivity (map g (map (fun p : Z * Field => p.1)
                         (zip (seqZ i (Z.of_nat (length fields))) fields))).
  - rewrite map_map. reflexivity.
  - f_equal. apply fst_zip. rewrite length_seqZ. lia.
Qed.

Lemma map_zip_seqZ_snd {B : Type} (g : Field -> B) (fields : list Field) (i : Z) :
  map (fun p : Z * Field => g p.2) (zip (seqZ i (Z.of_nat (length fields))) fields) =
    map g fields.
Proof.
  transitivity (map g (map (fun p : Z * Field => p.2)
                         (zip (seqZ i (Z.of_nat (length fields))) fields))).
  - rewrite map_map. reflexivity.
  - f_equal. apply snd_zip. rewrite length_seqZ. lia.
Qed.

Lemma Forall_zip_seqZ (P : Field -> Prop) (fields : list Field) :
  forall i : Z,
    Forall P fields ->
    Forall (fun p : Z * Field => P p.2) (zip (seqZ i (Z.of_nat (length fields))) fields).
Proof.
  induction fields as [|f rest IH]; intros i HP; [constructor|].
  apply Forall_cons in HP as [Hf HP].
  cbn [length]. rewrite seqZ_cons by lia. cbn [zip zip_with]. constructor; [exact Hf|].
  replace (Z.pred (Z.of_nat (S (length rest)))) with (Z.of_nat (length rest)) by lia.
  apply IH, HP.
Qed.

(** X2.  When the primary-key field is the first field and no field
    after it has the letters [pk] in its tag (so the record has no other
    key), the placeholders of [Insert] are [$1], ..., [$N] in this order, so
    the k-th placeholder stands for the k-th argument. *)
Theorem Insert_key_first_numbers_from_one (db : DB) (model : Struct)
    (pk : Field) (rest : list Field) :
  Fields model = pk :: rest ->
  pkDirective pk = true ->
  Forall (fun f => Contains (TagGet f) "pk" = false) rest ->
  Forall (fun f => columnTagOk f = true /\ IsExported (Name f) = true) rest ->
  let N := Z.of_nat (length rest) in
  let q := "INSERT INTO " +:+ ToLower (TypeName model +:+ "s") +:+ " ("
             +:+ Join (map columnName rest) ", " +:+ ") VALUES ("
             +:+ Join (map (fun k => "$" +:+ itoa k) (seqZ 1 N)) ", " +:+ ")" in
  let values := map (fun f => Some (Val f)) rest in
  Insert db model = ([CallExec q values], Ret (dbExec db q values)).
Proof.
  intros Hfields Hpk Hno Hok N q values.
  apply pkDirective_isPrimary in Hpk.
  assert (Hnk : nonKeyFields (Fields model) 0 = zip (seqZ 1 N) rest).
  { rewrite Hfields. cbn [nonKeyFields]. rewrite Hpk.
    apply nonKeyFields_no_key, Hno. }
  unfold Insert. rewrite insertLoop_spec.
  - rewrite Hnk. unfold insertColumns, insertPlaceholders, fieldValues, insertStatement.
    cbn [app]. subst N.
    rewrite (map_zip_seqZ_snd columnName), (map_zip_seqZ_snd (fun f => Some (Val f))).
    rewrite (map_zip_seqZ_fst (fun k => "$" +:+ itoa k)). reflexivity.
  - rewrite Hnk. subst N. apply (Forall_zip_seqZ _ rest 1 Hok).
Qed.

Lemma Insert_key_first_numbers_from_one_witness :
  Insert acceptAll someUser =
    ([CallExec "INSERT INTO users (name_user, email_user) VALUES ($1, $2)"
        [Some (VString "aji"); Some (VString "aji@handsome.com")]],
     Ret None).
Proof.
  apply (Insert_key_first_numbers_from_one acceptAll someUser
           (mkField "ID" (Some "pk") (VInt SzNative 14))
           [mkField "Name" (Some "column:name_user") (VString "aji");
            mkField "Email" (Some "column:email_user") (VString "aji@handsome.com")]).
  - reflexivity.
  - reflexivity.
  - repeat constructor.
  - repeat constructor.
Defined.

Lemma filter_all {A : Type} (p : A -> bool) (l : list A) :
  Forall (fun x => p x = true) l -> List.filter p l = l.
Proof.
  induction 1 as [|x l Hx _ IH]; [reflexivity|]. simpl. rewrite Hx, IH. reflexivity.
Qed.

Lemma filter_none {A : Type} (p : A -> bool) (l : list A) :
  Forall (fun x => p x = false) l -> List.filter p l = [].
Proof.
  induction 1 as [|x l Hx _ IH]; [reflexivity|]. simpl. rewrite Hx, IH. reflexivity.
Qed.

(** X3.  When the primary-key field is the first field, no field after
    it has the letters [pk] in its tag (so the record has no other key) and
    every other field holds a non-zero value, the fragments of [Update] use
    [$1], ..., [$N] in order and the WHERE clause uses [$N+1]: every
    placeholder stands for the argument at its position. *)
Theorem Update_key_first_all_set (db : DB) (model : Struct)
    (pk : Field) (rest : list Field) :
  Fields model = pk :: rest ->
  pkDirective pk = true ->
  IsExported (Name pk) = true ->
  Forall (fun f => Contains (TagGet f) "pk" = false) rest ->
  Forall (fun f => columnTagOk f = true /\ IsExported (Name f) = true
                   /\ IsZero (Val f) = false) rest ->
  let N := Z.of_nat (length rest) in
  let fragments :=
    map (fun p : Z * Field => columnName p.2 +:+ " = $" +:+ itoa p.1) (zip (seqZ 1 N) rest) in
  let q := newline +:+ tab +:+ tab +:+ "UPDATE " +:+ ToLower (TypeName model +:+ "s")
             +:+ " SET " +:+ Join fragments ", " +:+ " WHERE " +:+ Name pk
             +:+ " = $" +:+ itoa (1 + N) +:+ newline +:+ tab in
  let args := map (fun f => Some (Val f)) rest ++ [Some (Val pk)] in
  Update db model = ([CallExec q args], Ret (dbExec db q args)).
Proof.
  intros Hfields Hpk Hx Hno Hok N fragments q args.
  apply pkDirective_isPrimary in Hpk.
  assert (Hnk : nonKeyFields (Fields model) 0 = zip (seqZ 1 N) rest).
  { rewrite Hfields. cbn [nonKeyFields]. rewrite Hpk. apply nonKeyFields_no_key, Hno. }
  assert (Hnz : nonZeroFields (Fields model) 0 = zip (seqZ 1 N) rest).
  { unfold nonZeroFields. rewrite Hnk. apply filter_all.
    apply (Forall_zip_seqZ (fun f => negb (IsZero (Val f)) = true) rest 1).
    eapply Forall_impl; [exact Hok|]. intros f (_ & _ & Hz). simpl. rewrite Hz. reflexivity. }
  assert (Hkey : List.filter isPrimary (Fields model) = [pk]).
  { rewrite Hfields. simpl. rewrite Hpk. f_equal. apply filter_none, Hno. }
  unfold Update. rewrite updateLoop_spec.
  - rewrite Hnz. unfold finalKey. rewrite Hkey. simpl last. cbn [fst snd u_pkField u_pkValue
      u_paramCount u_setClause u_vals app].
    rewrite (exported_nonempty _ Hx).
    unfold fieldValues, setFragments, updateStatement.
    subst N. rewrite (map_zip_seqZ_snd (fun f => Some (Val f))).
    rewrite length_zip, length_seqZ.
    replace (Z.of_nat (Z.to_nat (Z.of_nat (length rest)) `min` length rest))
      with (Z.of_nat (length rest)) by lia.
    reflexivity.
  - rewrite Hnk. subst N. apply (Forall_zip_seqZ (fun f => columnTagOk f = true) rest 1).
    eapply Forall_impl; [exact Hok|]. intros f (Ht & _). exact Ht.
  - rewrite Hnz. subst N.
    apply (Forall_zip_seqZ (fun f => IsExported (Name f) = true) rest 1).
    eapply Forall_impl; [exact Hok|]. intros f (_ & He & _). exact He.
  - rewrite Hkey. repeat constructor. exact Hx.
Qed.

Lemma Update_key_first_all_set_witness :
  Update acceptAll someUser =
    ([CallExec
        (newline +:+ tab +:+ tab
           +:+ "UPDATE users SET name_user = $1, email_user = $2 WHERE ID = $3"
           +:+ newline +:+ tab)
        [Some (VString "aji"); Some (VString "aji@handsome.com"); Some (VInt SzNative 14)]],
     Ret None).
Proof.
  apply (Update_key_first_all_set acceptAll someUser
           (mkField "ID" (Some "pk") (VInt SzNative 14))
           [mkField "Name" (Some "column:name_user") (VString "aji");
            mkField "Email" (Some "column:email_user") (VString "aji@handsome.com")]);
    try reflexivity; repeat constructor.
Defined.

(** X4.  [Update] does not reject a record whose non-key fields all hold
    zero values.  With exactly one primary-key field, that field exported,
    and no non-key field whose tag contains the letters [pk] or contains
    [column] without a [:], it sends the statement with an empty SET clause,
    [UPDATE <table> SET  WHERE <pk> = $1], and the primary-key value as the
    only argument. *)
Theorem Update_all_zero_empty_set (db : DB) (model : Struct) (pk : Field) :
  List.filter pkDirective (Fields model) = [pk] ->
  IsExported (Name pk) = true ->
  Forall (fun p => Contains (TagGet p.2) "pk" = false /\ columnTagOk p.2 = true
                   /\ IsZero (Val p.2) = true)
         (nonKeyDeclared (Fields model) 0) ->
  let q := newline +:+ tab +:+ tab +:+ "UPDATE " +:+ ToLower (TypeName model +:+ "s")
             +:+ " SET  WHERE " +:+ Name pk +:+ " = $1" +:+ newline +:+ tab in
  Update db model = ([CallExec q [Some (Val pk)]], Ret (dbExec db q [Some (Val pk)])).
Proof.
  intros Hkey Hx Hok q.
  assert (Hno : Forall (fun p => Contains (TagGet p.2) "pk" = false)
                  (nonKeyDeclared (Fields model) 0)).
  { eapply Forall_impl; [exact Hok|]. intros p (Hp & _). exact Hp. }
  destruct (nonKeyDeclared_nonKeyFields _ _ Hno) as [Hnk Hkeys].
  rewrite Hkeys in Hkey. rewrite Hnk in Hok.
  assert (Htag : Forall (fun p => columnTagOk p.2 = true) (nonKeyFields (Fields model) 0)).
  { eapply Forall_impl; [exact Hok|]. intros p (_ & Hp & _). exact Hp. }
  assert (Hzero : Forall (fun p => IsZero (Val p.2) = true) (nonKeyFields (Fields model) 0)).
  { eapply Forall_impl; [exact Hok|]. intros p (_ & _ & Hp). exact Hp. }
  assert (Hnz : nonZeroFields (Fields model) 0 = []).
  { unfold nonZeroFields. apply filter_none.
    eapply Forall_impl; [exact Hzero|]. intros p Hp. simpl. rewrite Hp. reflexivity. }
  unfold Update. rewrite updateLoop_spec.
  - rewrite Hnz. unfold finalKey. rewrite Hkey. simpl.
    rewrite (exported_nonempty _ Hx). reflexivity.
  - exact Htag.
  - rewrite Hnz. constructor.
  - rewrite Hkey. repeat constructor. exact Hx.
Qed.

Lemma Update_all_zero_empty_set_witness :
  Update acceptAll blankUser =
    ([CallExec
        (newline +:+ tab +:+ tab +:+ "UPDATE users SET  WHERE ID = $1" +:+ newline +:+ tab)
        [Some (VInt SzNative 5)]],
     Ret None).
Proof.
  apply (Update_all_zero_empty_set acceptAll blankUser
           (mkField "ID" (Some "pk") (VInt SzNative 5)));
    try reflexivity; repeat constructor.
Defined.

(** X5.  [Insert], [Update] and [Delete] make at most one call on the
    database, an Exec, and hand back the driver's answer to it unchanged;
    the only error of their own is the missing-primary-key error of [Update],
    returned without any call. *)
Theorem writes_send_one_exec (db : DB) (model : Struct) :
  match Insert db model with
  | ([], Panic _) => True
  | ([CallExec q args], Ret e) => e = dbExec db q args
  | _ => False
  end
  /\ match Update db model with
     | ([], Panic _) => True
     | ([], Ret e) => e = Some "no primary key is found for update"
     | ([CallExec q args], Ret e) => e = dbExec db q args
     | _ => False
     end
  /\ match Delete db model with
     | ([], Panic _) => True
     | ([CallExec q args], Ret e) => e = dbExec db q args
     | _ => False
     end.
Proof.
  unfold Insert, Update, Delete. repeat split.
  - destruct (insertLoop _ _ _ _ _) as [[[c p] v]|]; [reflexivity|exact I].
  - destruct (updateLoop _ _ _) as [st|]; [|exact I].
    destruct (String.eqb (u_pkField st) ""); reflexivity.
  - destruct (deleteLoop _ _ _ _) as [[[f v] n]|]; [reflexivity|exact I].
Qed.

(** ** setFieldValue: what a call can and cannot do to a field *)

Ltac setFieldValue_cases field val Hf :=
  unfold setFieldValue, cannotConvert;
  destruct (AssignableTo (TypeOf val) (TypeOf (Val field))) eqn:?;
    [ unfold Set_, mustBeAssignable; destruct (CanSet field) eqn:?; simpl
    | destruct (Val field) as [| ? ? | ? ? | | | |] eqn:Hf;
      destruct val as [| [] ? | [] ? | | | |]; simpl;
      unfold SetInt, SetUint, SetFloat, SetString, SetBool, mustBeAssignable;
      try rewrite Hf; destruct (CanSet field) eqn:?; simpl ].

Lemma setFieldValue_shape
    (field field' : Field) (value : iface) (err : error) :
  setFieldValue field value = Ret (field', err) ->
  Name field' = Name field /\ Tag field' = Tag field
  /\ TypeOf (Val field') = TypeOf (Val field)
  /\ (is_Some err -> field' = field).
Proof.
  destruct value as [val|].
  - setFieldValue_cases field val Hf; intros [= <- <-];
      repeat split; try reflexivity;
      try (intros [? [=]]);
      try (unfold withVal, AssignableTo in *; simpl; eapply bool_decide_eq_true_1; eassumption);
      try (rewrite Hf; reflexivity).
  - intros [= <- <-]. repeat split; reflexivity.
Qed.

(** X6.  Whatever [setFieldValue] is given, a call that returns leaves the
    field its name, its tag and its type; and a call that returns an error
    leaves the field exactly as it was. *)
Theorem setFieldValue_keeps_name_tag_type
    (field field' : Field) (value : iface) (err : error) :
  setFieldValue field value = Ret (field', err) ->
  Name field' = Name field /\ Tag field' = Tag field
  /\ TypeOf (Val field') = TypeOf (Val field)
  /\ (is_Some err -> field' = field).
Proof. apply setFieldValue_shape. Qed.

Lemma setFieldValue_keeps_name_tag_type_witness :
  Name (mkField "Age" None (VInt Sz8 44)) = Name (mkField "Age" None (VInt Sz8 0))
  /\ Tag (mkField "Age" None (VInt Sz8 44)) = Tag (mkField "Age" None (VInt Sz8 0))
  /\ TypeOf (Val (mkField "Age" None (VInt Sz8 44))) =
       TypeOf (Val (mkField "Age" None (VInt Sz8 0)))
  /\ (is_Some (None : error) -> mkField "Age" None (VInt Sz8 44) = mkField "Age" None (VInt Sz8 0)).
Proof.
  apply (setFieldValue_keeps_name_tag_type
           (mkField "Age" None (VInt Sz8 0)) (mkField "Age" None (VInt Sz8 44))
           (Some (VInt Sz64 300)) None).
  reflexivity.
Defined.

(** X7.  On an exported field [setFieldValue] never panics: for every
    source value it returns, with nil or with an error. *)
Theorem setFieldValue_settable_returns (field : Field) (value : iface) :
  CanSet field = true ->
  exists field' err, setFieldValue field value = Ret (field', err).
Proof.
  intros Hset. destruct value as [val|]; [|simpl; eauto].
  setFieldValue_cases field val Hf; try congruence; eauto.
Qed.

Lemma setFieldValue_settable_returns_witness :
  exists field' err,
    setFieldValue (mkField "Name" None (VString "")) (Some (VInt Sz64 5)) =
      Ret (field', err).
Proof.
  apply (setFieldValue_settable_returns (mkField "Name" None (VString ""))
           (Some (VInt Sz64 5))).
  reflexivity.
Defined.

(** X8.  An unexported field, one whose name starts with an ASCII byte
    that is no upper-case letter, is never written: on such a field a call
    of [setFieldValue] that returns has left the field as it was (a nil
    source, or a source its kind does not accept); every other call panics. *)
Theorem setFieldValue_unexported_untouched
    (field field' : Field) (value : iface) (err : error) :
  asciiInitial (Name field) = true ->
  CanSet field = false ->
  setFieldValue field value = Ret (field', err) ->
  field' = field
  /\ (value = None \/ is_Some err).
Proof.
  intros _ Hset. destruct value as [val|].
  - setFieldValue_cases field val Hf; try congruence; intros [= <- <-];
      (split; [reflexivity | right; eexists; reflexivity]).
  - intros [= <- <-]. split; [reflexivity | left; reflexivity].
Qed.

Lemma setFieldValue_unexported_untouched_witness :
  mkField "name" None (VString "a") = mkField "name" None (VString "a")
  /\ (Some (VInt Sz64 5) = None \/ is_Some (Some "cannot convert int64 to string")).
Proof.
  apply (setFieldValue_unexported_untouched
           (mkField "name" None (VString "a")) (mkField "name" None (VString "a"))
           (Some (VInt Sz64 5)) (Some "cannot convert int64 to string"));
    reflexivity.
Defined.

Lemma setFieldValue_assignable (field : Field) (val : Value) :
  CanSet field = true ->
  TypeOf val = TypeOf (Val field) ->
  setFieldValue field (Some val) = Ret (withVal field val, None).
Proof.
  intros Hset Ht. unfold setFieldValue, AssignableTo.
  rewrite bool_decide_eq_true_2 by exact Ht.
  unfold Set_, mustBeAssignable. rewrite Hset. reflexivity.
Qed.

(** X9.  A source of the field's own type is stored as it is, without any
    conversion: a value read from a field with [Interface] and handed back to
    [setFieldValue] on that field leaves the field as it was. *)
Theorem setFieldValue_same_type_stores (field : Field) (val : Value) :
  CanSet field = true ->
  TypeOf val = TypeOf (Val field) ->
  setFieldValue field (Some val) = Ret (withVal field val, None)
  /\ (Interface field = Ret (Some (Val field))
      /\ setFieldValue field (Some (Val field)) = Ret (field, None)).
Proof.
  intros Hset Ht. split; [apply setFieldValue_assignable; assumption|].
  split; [apply Interface_exported, Hset|].
  rewrite setFieldValue_assignable by (exact Hset || reflexivity).
  destruct field; reflexivity.
Qed.

Lemma setFieldValue_same_type_stores_witness :
  setFieldValue (mkField "Name" None (VString "")) (Some (VString "aji")) =
    Ret (mkField "Name" None (VString "aji"), None).
Proof.
  apply (proj1 (setFieldValue_same_type_stores
                  (mkField "Name" None (VString "")) (VString "aji") eq_refl eq_refl)).
Defined.

(** X10.  An integer between 0 and 2^53 survives the way through a
    [float64] field: stored from an [int64] source into a [float64] field and
    from that field's value into an [int64] field, it comes back unchanged. *)
Theorem int64_through_float64_field (f g : Field) (c : Z) (x0 : spec_float) (z0 : Z) :
  CanSet f = true -> Val f = VFloat64 x0 ->
  CanSet g = true -> Val g = VInt Sz64 z0 ->
  0 <= c <= 2 ^ 53 ->
  exists x,
    setFieldValue f (Some (VInt Sz64 c)) = Ret (withVal f (VFloat64 x), None)
    /\ setFieldValue g (Some (VFloat64 x)) = Ret (withVal g (VInt Sz64 c), None).
Proof.
  intros Hf Hvf Hg Hvg Hc. exists (float64_of_int c). split.
  - unfold setFieldValue. rewrite Hvf. simpl.
    unfold SetFloat, mustBeAssignable. rewrite Hf, Hvf. reflexivity.
  - unfold setFieldValue. rewrite Hvg. simpl.
    unfold SetInt, mustBeAssignable. rewrite Hg, Hvg. simpl.
    rewrite (int_float_roundtrip c Hc). rewrite wrapS_id; [reflexivity|].
    change (2 ^ 53) with 9007199254740992 in Hc.
    change (2 ^ 63) with 9223372036854775808. lia.
Qed.

Lemma int64_through_float64_field_witness :
  exists x,
    setFieldValue (mkField "Score" None (VFloat64 (S754_zero false))) (Some (VInt Sz64 7)) =
      Ret (mkField "Score" None (VFloat64 x), None)
    /\ setFieldValue (mkField "Count" None (VInt Sz64 0)) (Some (VFloat64 x)) =
         Ret (mkField "Count" None (VInt Sz64 7), None).
Proof.
  apply (int64_through_float64_field
           (mkField "Score" None (VFloat64 (S754_zero false)))
           (mkField "Count" None (VInt Sz64 0)) 7 (S754_zero false) 0);
    try reflexivity.
  vm_compute. split; discriminate.
Defined.

(** ** The column maps of First, Select and Paginate *)

Lemma selectColumns_lookup (fields : list Field) :
  forall (ht : gmap string string) (c : string),
    selectColumns fields ht !! c =
      match last (List.filter (fun f => String.eqb (selectColumnOf f) c) fields) with
      | Some f => Some (Name f)
      | None => ht !! c
      end.
Proof.
  induction fields as [|f rest IH]; intros ht c; [reflexivity|].
  change (selectColumns (f :: rest) ht)
    with (selectColumns rest (<[selectColumnOf f := Name f]> ht)).
  rewrite IH. cbn [List.filter].
  destruct (String.eqb_spec (selectColumnOf f) c) as [Heq|Hne].
  - rewrite last_cons. destruct (last (List.filter _ rest)); [reflexivity|].
    rewrite Heq. apply lookup_insert_eq.
  - destruct (last (List.filter _ rest)); [reflexivity|].
    apply lookup_insert_ne, Hne.
Qed.

Lemma firstColumns_lookup (fields : list Field) :
  forall (ht : gmap string string) (c : string),
    firstColumns fields ht !! c =
      match last (List.filter (fun f => String.eqb (firstColumnOf f) c) fields) with
      | Some f => Some (Name f)
      | None => ht !! c
      end.
Proof.
  induction fields as [|f rest IH]; intros ht c; [reflexivity|].
  change (firstColumns (f :: rest) ht)
    with (firstColumns rest (<[firstColumnOf f := Name f]> ht)).
  rewrite IH. cbn [List.filter].
  destruct (String.eqb_spec (firstColumnOf f) c) as [Heq|Hne].
  - rewrite last_cons. destruct (last (List.filter _ rest)); [reflexivity|].
    rewrite Heq. apply lookup_insert_eq.
  - destruct (last (List.filter _ rest)); [reflexivity|].
    apply lookup_insert_ne, Hne.
Qed.

(** X11.  In the column map a column leads to the last field, in
    declaration order, that resolves to it, and to nothing when no field
    does: when two fields share a column, only the later one is ever
    populated.  This holds for the map of [Select] and [Paginate] and for the
    map of [First]. *)
Theorem column_map_last_field_wins (fields : list Field) (c : string) :
  selectColumns fields ∅ !! c =
    Name <$> last (List.filter (fun f => String.eqb (selectColumnOf f) c) fields)
  /\ firstColumns fields ∅ !! c =
       Name <$> last (List.filter (fun f => String.eqb (firstColumnOf f) c) fields).
Proof.
  rewrite selectColumns_lookup, firstColumns_lookup. split.
  - destruct (last (List.filter _ fields)); reflexivity.
  - destruct (last (List.filter _ fields)); reflexivity.
Qed.

Lemma plainTag_same_column (f : Field) :
  plainTag f = true -> firstColumnOf f = selectColumnOf f.
Proof.
  unfold plainTag, firstColumnOf, selectColumnOf.
  destruct (Tag f) as [tag|]; [|reflexivity].
  destruct (Split tag ":") as [|p0 [|p1 [|p2 l]]]; try reflexivity.
  intros ->. reflexivity.
Qed.

(** X12.  [First] and [Select] build the same column map for a record
    whose tags do not split into two parts at [:] unless the first part is
    [column]. *)
Theorem First_and_Select_same_columns (fields : list Field) (ht : gmap string string) :
  Forall (fun f => plainTag f = true) fields ->
  firstColumns fields ht = selectColumns fields ht.
Proof.
  intros Hplain. revert ht.
  induction Hplain as [|f rest Hf _ IH]; intros ht; [reflexivity|].
  change (firstColumns (f :: rest) ht)
    with (firstColumns rest (<[firstColumnOf f := Name f]> ht)).
  change (selectColumns (f :: rest) ht)
    with (selectColumns rest (<[selectColumnOf f := Name f]> ht)).
  rewrite (plainTag_same_column f Hf). apply IH.
Qed.

Lemma First_and_Select_same_columns_witness :
  firstColumns (Fields someUser) ∅ = selectColumns (Fields someUser) ∅.
Proof.
  apply (First_and_Select_same_columns (Fields someUser) ∅).
  repeat constructor.
Defined.

(** The two maps part on a tag of two parts whose first part is not
    [column]: [First] takes the second part for the column. *)
Example First_and_Select_differ :
  firstColumnOf (mkField "ID" (Some "pk:user_id") (VInt SzNative 0)) = "user_id"
  /\ selectColumnOf (mkField "ID" (Some "pk:user_id") (VInt SzNative 0)) = "id".
Proof. split; reflexivity. Qed.

Lemma splitScan_no_colon (x : string) :
  forall cur : string,
    Contains x ":" = false -> splitScan ":" x 0 cur = [cur +:+ x].
Proof.
  induction x as [|c x IH]; intros cur Hno.
  - simpl. rewrite append_empty. reflexivity.
  - cbn [Contains] in Hno. apply orb_false_iff in Hno as [Hp Hno].
    cbn [splitScan]. rewrite Hp. rewrite (IH _ Hno).
    f_equal. apply append_snoc.
Qed.

Lemma HasPrefix_empty (x : string) : HasPrefix x "" = true.
Proof. destruct x; reflexivity. Qed.

Lemma Split_column_tag (x : string) :
  Contains x ":" = false -> Split ("column:" +:+ x) ":" = ["column"; x].
Proof.
  intros Hno.
  change ("column:" +:+ x)
    with (String "c" (String "o" (String "l" (String "u" (String "m" (String "n"
            (String ":" x))))))).
  unfold Split. simpl. rewrite HasPrefix_empty.
  rewrite (splitScan_no_colon x "" Hno). reflexivity.
Qed.

Lemma Contains_column_tag (x : string) : Contains ("column:" +:+ x) "column" = true.
Proof.
  change ("column:" +:+ x)
    with (String "c" (String "o" (String "l" (String "u" (String "m" (String "n"
            (String ":" x))))))).
  reflexivity.
Qed.

(** For a field without a [storm] tag, or tagged [column:<name>] with a
    name free of [:], the three ways of resolving the column agree. *)
Lemma plainColumn_same_column (f : Field) :
  plainColumn f ->
  columnName f = selectColumnOf f /\ firstColumnOf f = selectColumnOf f.
Proof.
  unfold columnName, selectColumnOf, firstColumnOf, TagGet.
  intros [Hnone|(x & Hx & Hno)].
  - rewrite Hnone. split; reflexivity.
  - rewrite Hx. change (default "" (Some ("column:" +:+ x))) with ("column:" +:+ x).
    rewrite (Contains_column_tag x), (Split_column_tag x Hno). split; reflexivity.
Qed.

Lemma plainColumn_columnTagOk (f : Field) : plainColumn f -> columnTagOk f = true.
Proof.
  unfold columnTagOk, TagGet. intros [Hnone|(x & Hx & _)].
  - rewrite Hnone. reflexivity.
  - rewrite Hx. change (default "" (Some ("column:" +:+ x))) with ("column" +:+ ":" +:+ x).
    rewrite (Contains_middle "column" ":" x). apply orb_true_r.
Qed.

(** The columns part on a tag with a second [:]: [Insert] writes the piece
    after the first [:], [Select] falls back to the lower-cased name. *)
Example written_and_read_column_differ :
  columnName (mkField "Name" (Some "column:a:b") (VString "")) = "a"
  /\ selectColumnOf (mkField "Name" (Some "column:a:b") (VString "")) = "name".
Proof. split; reflexivity. Qed.

(** ** Row mapping: what Select, Paginate and First read *)

Lemma map_fmap {A B : Type} (f : A -> B) (l : list A) : map f l = f <$> l.
Proof. reflexivity. Qed.

Lemma TypeOf_zeroValue (t : GoType) : TypeOf (zeroValue t) = t.
Proof. destruct t; reflexivity. Qed.

Lemma New_StructTypeOf (m : Struct) :
  New (StructTypeOf m) = mkStruct (TypeName m) (map zeroField (Fields m)).
Proof.
  unfold New, StructTypeOf. simpl. f_equal. rewrite map_map. reflexivity.
Qed.

Lemma StructTypeOf_New (tipe : StructType) : StructTypeOf (New tipe) = tipe.
Proof.
  destruct tipe as [name decls]. unfold StructTypeOf, New. simpl. f_equal.
  rewrite map_map. induction decls as [|[[n tg] t] decls IH]; [reflexivity|].
  simpl. rewrite IH. unfold fieldDecl. simpl. rewrite TypeOf_zeroValue. reflexivity.
Qed.

Lemma selectColumns_notin (fields : list Field) :
  forall (ht : gmap string string) (c : string),
    c ∉ map selectColumnOf fields -> selectColumns fields ht !! c = ht !! c.
Proof.
  induction fields as [|g rest IH]; intros ht c Hc; [reflexivity|].
  change (selectColumns (g :: rest) ht)
    with (selectColumns rest (<[selectColumnOf g := Name g]> ht)).
  simpl in Hc. apply not_elem_of_cons in Hc as [Hne Hc].
  rewrite (IH _ _ Hc). apply lookup_insert_ne. congruence.
Qed.

Lemma selectColumns_in (fields : list Field) :
  forall (ht : gmap string string) (f : Field),
    NoDup (map selectColumnOf fields) -> f ∈ fields ->
    selectColumns fields ht !! selectColumnOf f = Some (Name f).
Proof.
  induction fields as [|g rest IH]; intros ht f Hnd Hf; [inversion Hf|].
  change (selectColumns (g :: rest) ht)
    with (selectColumns rest (<[selectColumnOf g := Name g]> ht)).
  simpl in Hnd. apply NoDup_cons in Hnd as [Hg Hnd].
  apply elem_of_cons in Hf as [->|Hf].
  - rewrite (selectColumns_notin _ _ _ Hg). apply lookup_insert_eq.
  - apply IH; assumption.
Qed.

Lemma FieldByName_middle (done rest : list Field) (h : Field) (name : string) :
  name ∉ map Name done -> Name h = name ->
  FieldByName (done ++ h :: rest) name = Some (length done).
Proof.
  intros Hnot Hh. induction done as [|g done IH]; simpl.
  - rewrite Hh, String.eqb_refl. reflexivity.
  - simpl in Hnot. apply not_elem_of_cons in Hnot as [Hne Hnot].
    destruct (String.eqb_spec (Name g) name) as [Heq|_]; [congruence|].
    rewrite (IH Hnot). reflexivity.
Qed.

Lemma insert_middle {A : Type} (done rest : list A) (x y : A) :
  <[length done := y]> (done ++ x :: rest) = done ++ y :: rest.
Proof. induction done as [|g done IH]; simpl; [reflexivity|]. rewrite IH. reflexivity. Qed.

(** Mapping the values of a record's fields, column by column in
    declaration order, into the zero record gives the record back. *)
Lemma selectAssign_reads_back (ht : gmap string string) (all : list Field) :
  (forall f, f ∈ all -> ht !! selectColumnOf f = Some (Name f)) ->
  NoDup (map Name all) ->
  Forall (fun f => IsExported (Name f) = true) all ->
  forall todo done : list Field,
    all = done ++ todo ->
    selectAssign ht (map selectColumnOf todo) (length done)
      (map (fun f => Some (Val f)) all) (done ++ map zeroField todo) = Ret (all, None).
Proof.
  intros Hht Hnd Hexp todo.
  induction todo as [|f todo IH]; intros done Hall.
  - simpl. rewrite !app_nil_r in *. subst. reflexivity.
  - cbn [map selectAssign].
    assert (Hf : f ∈ all) by (rewrite Hall; apply elem_of_app; right; left).
    rewrite (Hht f Hf).
    assert (Hnot : Name f ∉ map Name done).
    { rewrite Hall, map_app in Hnd. simpl in Hnd.
      apply NoDup_app in Hnd as (_ & Hdisj & _).
      intros Hin. apply (Hdisj _ Hin). left. }
    rewrite (FieldByName_middle done (map zeroField todo) (zeroField f) (Name f) Hnot eq_refl).
    rewrite (index_lookup _ _ (zeroField f)) by (apply list_lookup_middle; reflexivity).
    rewrite (index_lookup _ _ (Some (Val f))).
    2:{ rewrite Hall, map_app. cbn [map]. apply list_lookup_middle.
        rewrite length_map. reflexivity. }
    cbn [mbind Res_bind].
    rewrite setFieldValue_assignable.
    + cbn [mbind Res_bind]. rewrite insert_middle.
      replace (withVal (zeroField f) (Val f)) with f by (destruct f; reflexivity).
      specialize (IH (done ++ [f])). rewrite length_app in IH. simpl in IH.
      rewrite Nat.add_1_r in IH.
      replace (done ++ f :: map zeroField todo)
        with ((done ++ [f]) ++ map zeroField todo)
        by (rewrite <- app_assoc; reflexivity).
      apply IH. rewrite <- app_assoc. exact Hall.
    + unfold CanSet. simpl. rewrite Forall_forall in Hexp. apply Hexp, Hf.
    + simpl. rewrite TypeOf_zeroValue. reflexivity.
Qed.

Lemma selectRows_reads_back (tipe : StructType) :
  let zs := Fields (New tipe) in
  let cols := map selectColumnOf zs in
  NoDup cols -> NoDup (map Name zs) ->
  Forall (fun f => IsExported (Name f) = true) zs ->
  forall (models dest : list Struct),
    Forall (fun m => StructTypeOf m = tipe) models ->
    selectRows tipe cols (map rowOf models) dest = Ret (dest ++ models, None).
Proof.
  intros zs cols Hcols Hnames Hexp models.
  induction models as [|m models IH]; intros dest Hty.
  - simpl. rewrite app_nil_r. reflexivity.
  - apply Forall_cons in Hty as [Hm Hty].
    assert (Hzs : zs = map zeroField (Fields m)).
    { unfold zs. rewrite <- Hm, New_StructTypeOf. reflexivity. }
    assert (Hcols' : cols = map selectColumnOf (Fields m)).
    { unfold cols. rewrite Hzs, map_map. reflexivity. }
    assert (Hname : TypeName (New tipe) = TypeName m).
    { rewrite <- Hm, New_StructTypeOf. reflexivity. }
    cbn [map selectRows]. unfold rowOf at 1. cbn [Scan].
    rewrite resize_all_alt.
    2:{ rewrite Hcols', !length_map. reflexivity. }
    fold zs. rewrite Hname.
    pose proof (selectAssign_reads_back (selectColumns zs ∅) (Fields m)) as Hrow.
    specialize (Hrow ltac:(
      intros f Hf;
      change (selectColumnOf f) with (selectColumnOf (zeroField f));
      change (Name f) with (Name (zeroField f));
      apply selectColumns_in; [exact Hcols|];
      rewrite Hzs; rewrite map_fmap; apply list_elem_of_fmap_2; exact Hf)).
    assert (Hnm : NoDup (map Name (Fields m))).
    { rewrite Hzs, map_map in Hnames. exact Hnames. }
    assert (Hxm : Forall (fun f => IsExported (Name f) = true) (Fields m)).
    { rewrite Hzs in Hexp. rewrite Forall_forall in Hexp |- *.
      intros f Hf. apply (Hexp (zeroField f)).
      rewrite map_fmap. apply list_elem_of_fmap_2, Hf. }
    specialize (Hrow Hnm Hxm (Fields m) [] eq_refl). simpl in Hrow.
    rewrite Hzs at 2. rewrite Hcols' at 1. rewrite Hrow. cbn [mbind Res_bind].
    replace (mkStruct (TypeName m) (Fields m)) with m by (destruct m; reflexivity).
    rewrite (IH _ Hty). rewrite <- app_assoc. reflexivity.
Qed.

(** X14.  Let the fields of a record type be exported, with distinct names
    and distinct columns.  When the result set lists the columns of the
    fields in declaration order and each row holds the values of the fields
    of a record, every value of the dynamic type of its field, [Select]
    appends exactly these records, in the order of the rows, and returns nil. *)
Theorem Select_reads_records_back
    (q : Query) (tipe : StructType) (dest models : list Struct) (queryCol : list string) :
  let zs := Fields (New tipe) in
  let cols := map selectColumnOf zs in
  NoDup cols -> NoDup (map Name zs) ->
  Forall (fun f => IsExported (Name f) = true) zs ->
  Forall (fun m => StructTypeOf m = tipe) models ->
  dbQuery (storm q) (selectQuery q queryCol).1 (selectQuery q queryCol).2 =
    QueryRows (mkRows cols (map rowOf models)) ->
  Select q tipe dest queryCol =
    ([CallQuery (selectQuery q queryCol).1 (selectQuery q queryCol).2],
     Ret (dest ++ models, None)).
Proof.
  intros zs cols Hcols Hnames Hexp Hty Hq. subst cols zs. unfold Select.
  destruct (selectQuery q queryCol) as [query args]. cbn [fst snd] in Hq. rewrite Hq.
  cbn [Columns Data]. rewrite (selectRows_reads_back tipe Hcols Hnames Hexp models dest Hty).
  reflexivity.
Qed.

Lemma Select_reads_records_back_witness :
  Select (From usersTable someUser) userType [] [] =
    ([CallQuery "SELECT * FROM users" []], Ret ([firstUser; secondUser], None)).
Proof.
  apply (Select_reads_records_back (From usersTable someUser) userType []
           [firstUser; secondUser] []).
  - apply (bool_decide_unpack _). vm_compute. exact I.
  - apply (bool_decide_unpack _). vm_compute. exact I.
  - repeat constructor.
  - repeat constructor.
  - reflexivity.
Defined.

Lemma map_insert_same {A B : Type} (g : A -> B) (l : list A) :
  forall (k : nat) (x y : A),
    l !! k = Some x -> g y = g x -> map g (<[k := y]> l) = map g l.
Proof.
  induction l as [|a l IH]; intros k x y Hk Hg; [reflexivity|].
  destruct k as [|k]; simpl in *.
  - injection Hk as ->. rewrite Hg. reflexivity.
  - rewrite (IH k x y Hk Hg). reflexivity.
Qed.

Lemma index_Ret {A : Type} (l : list A) (i : nat) (x : A) :
  index l i = Ret x -> l !! i = Some x.
Proof. unfold index. destruct (l !! i); [intros [= ->]; reflexivity|discriminate]. Qed.

(** The assignment loop changes values only: names, tags and types of the
    fields stay. *)
Lemma selectAssign_decls (ht : gmap string string) (cols : list string) :
  forall (i : nat) (vals : list iface) (s s' : list Field) (e : error),
    selectAssign ht cols i vals s = Ret (s', e) ->
    map fieldDecl s' = map fieldDecl s.
Proof.
  induction cols as [|col cols IH]; intros i vals s s' e; cbn [selectAssign].
  - intros [= <- <-]. reflexivity.
  - destruct (ht !! col) as [fname|]; [|apply IH].
    destruct (FieldByName s fname) as [k|]; [|apply IH].
    destruct (index s k) as [field|] eqn:Hfield; [|discriminate].
    destruct (index vals i) as [v|]; [|discriminate]. cbn [mbind Res_bind].
    destruct (setFieldValue field v) as [[field' err]|] eqn:Hset; [|discriminate].
    cbn [mbind Res_bind].
    assert (Hdecl : map fieldDecl (<[k := field']> s) = map fieldDecl s).
    { apply (map_insert_same fieldDecl s k field field' (index_Ret _ _ _ Hfield)).
      destruct (setFieldValue_shape _ _ _ _ Hset) as (Hn & Ht & Hty & _).
      unfold fieldDecl. rewrite Hn, Ht, Hty. reflexivity. }
    destruct err as [e0|].
    + intros [= <- <-]. exact Hdecl.
    + intros H. rewrite (IH _ _ _ _ _ H). exact Hdecl.
Qed.

(** [selectRows] only appends, at most one record per row, each of the
    type it was given. *)
Lemma selectRows_appends (tipe : StructType) (cols : list string) (rows : list Row) :
  forall (dest dest' : list Struct) (e : error),
    selectRows tipe cols rows dest = Ret (dest', e) ->
    exists added,
      dest' = dest ++ added
      /\ Forall (fun m => StructTypeOf m = tipe) added
      /\ (length added <= length rows)%nat
      /\ (e = None -> length added = length rows).
Proof.
  induction rows as [|r rows IH]; intros dest dest' e; cbn [selectRows].
  - intros [= <- <-]. exists []. rewrite app_nil_r. repeat split; constructor.
  - destruct (Scan (length cols) r) as [err|vals].
    { intros [= <- <-]. exists []. rewrite app_nil_r.
      repeat split; try constructor; try discriminate. simpl. lia. }
    destruct (selectAssign _ cols 0 vals _) as [[fields err]|] eqn:Hrow; [|discriminate].
    cbn [mbind Res_bind]. destruct err as [e0|].
    { intros [= <- <-]. exists []. rewrite app_nil_r.
      repeat split; try constructor; try discriminate. simpl. lia. }
    intros H. destruct (IH _ _ _ H) as (added & -> & Hty & Hlen & Hall).
    exists (mkStruct (TypeName (New tipe)) fields :: added).
    rewrite <- app_assoc. split; [reflexivity|]. split; [|split; simpl].
    + constructor; [|exact Hty].
      pose proof (selectAssign_decls _ _ _ _ _ _ _ Hrow) as Hd.
      rewrite <- (StructTypeOf_New tipe) at 2.
      unfold StructTypeOf. cbn [TypeName Fields]. rewrite Hd. reflexivity.
    + lia.
    + intros He. rewrite (Hall He). reflexivity.
Qed.

(** X15.  [Select] and [Paginate] only ever append to the destination
    slice: what was in it stays in front, at most one record is added per row
    of the result set, exactly one per row when nil is returned, and every
    added record has the record type the call was given. *)
Theorem Select_and_Paginate_only_append
    (q : Query) (tipe : StructType) (dest : list Struct) (queryCol : list string)
    (rows : Rows) (page pageSize total0 totalPages0 n : Z) :
  (dbQuery (storm q) (selectQuery q queryCol).1 (selectQuery q queryCol).2 = QueryRows rows ->
   forall dest' e,
     snd (Select q tipe dest queryCol) = Ret (dest', e) ->
     exists added,
       dest' = dest ++ added
       /\ Forall (fun m => StructTypeOf m = tipe) added
       /\ (length added <= length (Data rows))%nat
       /\ (e = None -> length added = length (Data rows)))
  /\ (dbQueryRow (storm q) (countStatement (table q)) = ScanIntOk n ->
      dbQuery (storm q) (pageStatement queryCol (table q))
        [Some (VInt SzNative (if pageSize <=? 0 then 1 else pageSize));
         Some (VInt SzNative
                 (pageOffset (if page <? 1 then 1 else page)
                    (if pageSize <=? 0 then 1 else pageSize)))] = QueryRows rows ->
      forall out,
        snd (Paginate q tipe dest page pageSize total0 totalPages0 queryCol) = Ret out ->
        exists added,
          p_dest out = dest ++ added
          /\ Forall (fun m => StructTypeOf m = tipe) added
          /\ (length added <= length (Data rows))%nat
          /\ (p_err out = None -> length added = length (Data rows))).
Proof.
  split.
  - intros Hq dest' e. unfold Select.
    destruct (selectQuery q queryCol) as [query args]. cbn [fst snd] in Hq. rewrite Hq.
    cbn [snd]. apply selectRows_appends.
  - intros Hcount Hq out. unfold Paginate, pageOffset in *. rewrite Hcount, Hq. cbn [snd].
    destruct (selectRows tipe (Columns rows) (Data rows) dest) as [[dest' e]|] eqn:Hrows;
      [|discriminate].
    cbn [mbind Res_bind]. intros [= <-]. cbn [p_dest p_err].
    apply (selectRows_appends _ _ _ _ _ _ Hrows).
Qed.

Lemma Select_and_Paginate_only_append_witness :
  exists added,
    [firstUser] = [] ++ added
    /\ Forall (fun m => StructTypeOf m = userType) added
    /\ (length added <= length (Data mistypedRows))%nat
    /\ (Some "error setting field Name: cannot convert int64 to string" = None ->
        length added = length (Data mistypedRows)).
Proof.
  apply (proj1 (Select_and_Paginate_only_append (From mistyped someUser) userType [] []
                  mistypedRows 1 1 0 0 3) eq_refl
           [firstUser] (Some "error setting field Name: cannot convert int64 to string")).
  reflexivity.
Defined.

Lemma selectAssign_passes_over (ht : gmap string string) (cols : list string) :
  forall (i : nat) (vals : list iface) (s : list Field),
    (forall (j : nat) (col : string),
        cols !! j = Some col -> ht !! col = None \/ vals !! (i + j)%nat = Some None) ->
    selectAssign ht cols i vals s = Ret (s, None).
Proof.
  induction cols as [|col cols IH]; intros i vals s Hpass; [reflexivity|].
  cbn [selectAssign].
  assert (Hrest : forall (j : nat) (c : string),
             cols !! j = Some c -> ht !! c = None \/ vals !! (S i + j)%nat = Some None).
  { intros j c Hj. replace (S i + j)%nat with (i + S j)%nat by lia. apply Hpass. exact Hj. }
  destruct (Hpass 0%nat col eq_refl) as [Hunknown|Hnull].
  - rewrite Hunknown. apply IH, Hrest.
  - rewrite Nat.add_0_r in Hnull.
    destruct (ht !! col) as [fname|]; [|apply IH, Hrest].
    destruct (FieldByName s fname) as [k|] eqn:Hk; [|apply IH, Hrest].
    destruct (FieldByName_lookup _ _ _ Hk) as [field Hfield].
    rewrite (index_lookup _ _ _ Hfield). simpl.
    rewrite (index_lookup vals i None Hnull). simpl.
    rewrite (list_insert_id _ _ _ Hfield). apply IH, Hrest.
Qed.

(** X16.  Columns the record type does not map and NULL values are passed
    over without error: when every column of every row is unknown or holds
    NULL, [Select] appends one zero-valued record per row and returns nil,
    whether the fields are exported or not. *)
Theorem Select_passes_over_unknown_and_null
    (q : Query) (tipe : StructType) (dest : list Struct) (queryCol cols : list string)
    (rows : list Row) :
  dbQuery (storm q) (selectQuery q queryCol).1 (selectQuery q queryCol).2 =
    QueryRows (mkRows cols rows) ->
  Forall (fun r => exists vals,
            Scan (length cols) r = inr vals
            /\ passedOver (selectColumns (Fields (New tipe)) ∅) cols vals) rows ->
  Select q tipe dest queryCol =
    ([CallQuery (selectQuery q queryCol).1 (selectQuery q queryCol).2],
     Ret (dest ++ replicate (length rows) (New tipe), None)).
Proof.
  intros Hq Hrows. unfold Select.
  destruct (selectQuery q queryCol) as [query args]. cbn [fst snd] in Hq. rewrite Hq.
  cbn [Columns Data fst snd]. f_equal. clear Hq. revert dest.
  induction Hrows as [|r rows (vals & Hscan & Hpass) _ IH]; intros dest.
  - simpl. rewrite app_nil_r. reflexivity.
  - cbn [selectRows]. rewrite Hscan.
    rewrite (selectAssign_passes_over _ cols 0 vals); [|exact Hpass].
    cbn [mbind Res_bind].
    replace (mkStruct (TypeName (New tipe)) (Fields (New tipe))) with (New tipe)
      by (destruct (New tipe); reflexivity).
    rewrite IH. cbn [length replicate]. rewrite <- app_assoc. reflexivity.
Qed.

Lemma Select_passes_over_unknown_and_null_witness :
  Select (From nullsAndExtras someUser) userType [] [] =
    ([CallQuery "SELECT * FROM users" []], Ret ([New userType], None)).
Proof.
  apply (Select_passes_over_unknown_and_null (From nullsAndExtras someUser) userType [] []
           ["created_at"; "name_user"] [RowValues [Some (VString "2025"); None]]).
  - reflexivity.
  - constructor; [|constructor].
    exists [Some (VString "2025"); None]. split; [reflexivity|].
    intros [|[|j]] col [= <-]; [left; reflexivity | right; reflexivity].
Defined.










(** X22.  [Paginate] stores the counts before it reads a row.  When the
    count fails, it sends nothing else and returns the error; the
    destination and [*totalPages] are what they were, and so is [*total]
    unless the failing call had stored a count in it.  When the count
    succeeds, every call that returns, with nil or with an error of the
    query or of a row, has stored the count in [*total] and the page count in
    [*totalPages]; a failing data query leaves the destination as it was. *)
Theorem Paginate_stores_counts_first
    (q : Query) (tipe : StructType) (dest : list Struct)
    (page pageSize total0 totalPages0 : Z) (queryCol : list string) :
  match dbQueryRow (storm q) (countStatement (table q)) with
  | ScanIntError e =>
      Paginate q tipe dest page pageSize total0 totalPages0 queryCol =
        ([CallQueryRow (countStatement (table q))],
         Ret (mkPage dest
                (match stored e with Some n => n | None => total0 end)
                totalPages0 (Some (failure e))))
  | ScanIntOk n =>
      forall out,
        snd (Paginate q tipe dest page pageSize total0 totalPages0 queryCol) = Ret out ->
        p_total out = n
        /\ p_totalPages out = pageCount n (if pageSize <=? 0 then 1 else pageSize)
        /\ (forall e : string,
              dbQuery (storm q) (pageStatement queryCol (table q))
                [Some (VInt SzNative (if pageSize <=? 0 then 1 else pageSize));
                 Some (VInt SzNative
                         (pageOffset (if page <? 1 then 1 else page)
                            (if pageSize <=? 0 then 1 else pageSize)))] = QueryError e ->
              p_dest out = dest /\ p_err out = Some e)
  end.
Proof.
  unfold Paginate, pageOffset.
  destruct (dbQueryRow (storm q) (countStatement (table q))) as [e|n].
  - destruct (stored e); reflexivity.
  - intros out.
    destruct (dbQuery (storm q) _ _) as [e'|rows].
    + cbn [snd]. intros [= <-]. cbn. repeat split; congruence.
    + cbn [snd].
      destruct (selectRows tipe (Columns rows) (Data rows) dest) as [[dest' err]|msg];
        [|discriminate].
      intros [= <-]. cbn. repeat split; discriminate.
Qed.

Lemma Paginate_stores_counts_first_witness :
  Paginate (From closeFails someUser) userType [] 1 2 0 0 [] =
    ([CallQueryRow "SELECT COUNT(*) FROM users"],
     Ret (mkPage [] 7 0 (Some "bad connection")))
  /\ p_total (mkPage [] 7 (pageCount 7 2) (Some "connection lost")) = 7
  /\ p_totalPages (mkPage [] 7 (pageCount 7 2) (Some "connection lost")) = pageCount 7 2.
Proof.
  split.
  - exact (Paginate_stores_counts_first (From closeFails someUser) userType [] 1 2 0 0 []).
  - pose proof (Paginate_stores_counts_first (From countsOnly someUser) userType [] 1 2 0 0 []
                  (mkPage [] 7 (pageCount 7 2) (Some "connection lost")) eq_refl) as H.
    split; [exact (proj1 H) | exact (proj1 (proj2 H))].
Defined.

(** X23.  [New] returns an instance or an error, never both and never
    neither.  The instance wraps the handle [sql.Open] gave, and [Ping] on
    that handle has succeeded; the error is the driver's with the text of the
    failed step in front. *)
Theorem New_instance_or_error (env : Connect.Opener) (driverName dsn : string) :
  match Connect.New env driverName dsn with
  | (Some s, None) =>
      Connect.sqlOpen env driverName dsn = inr (Connect.DB_ s)
      /\ Connect.dbPing env (Connect.DB_ s) = None
  | (None, Some e) =>
      (exists err, Connect.sqlOpen env driverName dsn = inl err
                   /\ e = "Failed to open database connection: " +:+ err)
      \/ (exists handle err,
             Connect.sqlOpen env driverName dsn = inr handle
             /\ Connect.dbPing env handle = Some err
             /\ e = "failed to connect to database: " +:+ err)
  | _ => False
  end.
Proof.
  unfold Connect.New.
  destruct (Connect.sqlOpen env driverName dsn) as [err|handle] eqn:Hopen.
  - left. exists err. split; reflexivity.
  - destruct (Connect.dbPing env handle) as [err|] eqn:Hping.
    + right. exists handle, err. repeat split; assumption || reflexivity.
    + split; [reflexivity | exact Hping].
Qed.

(** ** Writing and reading the same columns *)

Lemma firstColumns_notin (fields : list Field) :
  forall (ht : gmap string string) (c : string),
    c ∉ map firstColumnOf fields -> firstColumns fields ht !! c = ht !! c.
Proof.
  induction fields as [|g rest IH]; intros ht c Hc; [reflexivity|].
  change (firstColumns (g :: rest) ht)
    with (firstColumns rest (<[firstColumnOf g := Name g]> ht)).
  simpl in Hc. apply not_elem_of_cons in Hc as [Hne Hc].
  rewrite (IH _ _ Hc). apply lookup_insert_ne. congruence.
Qed.

Lemma firstColumns_in (fields : list Field) :
  forall (ht : gmap string string) (f : Field),
    NoDup (map firstColumnOf fields) -> f ∈ fields ->
    firstColumns fields ht !! firstColumnOf f = Some (Name f).
Proof.
  induction fields as [|g rest IH]; intros ht f Hnd Hf; [inversion Hf|].
  change (firstColumns (g :: rest) ht)
    with (firstColumns rest (<[firstColumnOf g := Name g]> ht)).
  simpl in Hnd. apply NoDup_cons in Hnd as [Hg Hnd].
  apply elem_of_cons in Hf as [->|Hf].
  - rewrite (firstColumns_notin _ _ _ Hg). apply lookup_insert_eq.
  - apply IH; assumption.
Qed.

Lemma nonKeyDeclared_elem (fields : list Field) :
  forall i : Z, Forall (fun p => p.2 ∈ fields) (nonKeyDeclared fields i).
Proof.
  induction fields as [|f rest IH]; intros i; [constructor|].
  cbn [nonKeyDeclared].
  assert (Hrest : Forall (fun p : Z * Field => p.2 ∈ f :: rest) (nonKeyDeclared rest (i + 1))).
  { eapply Forall_impl; [apply IH|]. intros p Hp. apply elem_of_cons. right. exact Hp. }
  destruct (pkDirective f); [exact Hrest|].
  constructor; [apply elem_of_cons; left; reflexivity | exact Hrest].
Qed.

Lemma Forall_filter_keeps {A : Type} (P : A -> Prop) (p : A -> bool) (l : list A) :
  Forall P l -> Forall P (List.filter p l).
Proof.
  induction 1 as [|x l Hx _ IH]; [constructor|].
  cbn [List.filter]. destruct (p x); [constructor; assumption | exact IH].
Qed.

(** X13.  Let the non-key fields of a record be exported, without the
    letters [pk] in their tags, and untagged or tagged [column:<name>] with
    a name free of [:].  Then the columns [Insert] lists, and the columns
    [Update] sets, are the columns [Select], [Paginate] and [First] resolve
    for these fields; and where the columns of the record are distinct, each
    of them leads, in the column map of the readers, to the field it was
    written from. *)
Theorem written_column_is_read_column (db : DB) (model : Struct) :
  let nk := nonKeyDeclared (Fields model) 0 in
  let nz := nonZeroDeclared (Fields model) 0 in
  Forall (fun p => Contains (TagGet p.2) "pk" = false /\ IsExported (Name p.2) = true
                   /\ plainColumn p.2) nk ->
  (let q := insertStatement (TypeName model) (map (fun p => selectColumnOf p.2) nk)
              (map (fun p => "$" +:+ itoa p.1) nk) in
   let values := map (fun p => Some (Val p.2)) nk in
   Insert db model = ([CallExec q values], Ret (dbExec db q values)))
  /\ (forall pk : Field,
        List.filter pkDirective (Fields model) = [pk] ->
        IsExported (Name pk) = true ->
        let q := updateStatement (TypeName model)
                   (map (fun p => selectColumnOf p.2 +:+ " = $" +:+ itoa p.1) nz)
                   (Name pk) (1 + Z.of_nat (length nz)) in
        let args := map (fun p => Some (Val p.2)) nz ++ [Some (Val pk)] in
        Update db model = ([CallExec q args], Ret (dbExec db q args)))
  /\ (NoDup (map selectColumnOf (Fields model)) ->
      Forall (fun p => selectColumns (Fields model) ∅ !! selectColumnOf p.2 = Some (Name p.2))
             nk)
  /\ (NoDup (map firstColumnOf (Fields model)) ->
      Forall (fun p => firstColumns (Fields model) ∅ !! selectColumnOf p.2 = Some (Name p.2))
             nk).
Proof.
  intros nk nz Hok.
  assert (Hno : Forall (fun p => Contains (TagGet p.2) "pk" = false) nk).
  { eapply Forall_impl; [exact Hok|]. intros p (Hp & _). exact Hp. }
  assert (Hcol : Forall (fun p => columnName p.2 = selectColumnOf p.2) nk).
  { eapply Forall_impl; [exact Hok|]. intros p (_ & _ & Hp).
    apply (plainColumn_same_column _ Hp). }
  assert (Hfirst : Forall (fun p => firstColumnOf p.2 = selectColumnOf p.2) nk).
  { eapply Forall_impl; [exact Hok|]. intros p (_ & _ & Hp).
    apply (plainColumn_same_column _ Hp). }
  assert (Htag : Forall (fun p => columnTagOk p.2 = true) nk).
  { eapply Forall_impl; [exact Hok|]. intros p (_ & _ & Hp).
    apply plainColumn_columnTagOk, Hp. }
  assert (Hexp : Forall (fun p => IsExported (Name p.2) = true) nk).
  { eapply Forall_impl; [exact Hok|]. intros p (_ & Hp & _). exact Hp. }
  destruct (nonKeyDeclared_nonKeyFields _ _ Hno) as [Hnk Hkeys]. fold nk in Hnk.
  assert (Hnz : nz = nonZeroFields (Fields model) 0)
    by apply (nonZeroDeclared_nonZeroFields _ _ Hno).
  split; [|split; [|split]].
  - intros q values. unfold Insert. rewrite insertLoop_spec.
    + rewrite <- Hnk. subst q values. unfold insertColumns, insertPlaceholders, fieldValues.
      cbn [app]. rewrite (map_ext_Forall _ _ Hcol). reflexivity.
    + rewrite <- Hnk. eapply Forall_impl; [exact Hok|].
      intros p (_ & Hx & Hp). split; [apply plainColumn_columnTagOk, Hp | exact Hx].
  - intros pk Hpk Hx q args. rewrite Hkeys in Hpk.
    unfold Update. rewrite updateLoop_spec.
    + unfold finalKey. rewrite Hpk. rewrite <- Hnz.
      cbn [last fst snd u_pkField u_pkValue u_paramCount u_setClause u_vals app Name Val].
      rewrite (exported_nonempty _ Hx).
      subst q args. unfold setFragments, fieldValues.
      rewrite (map_ext_Forall (fun p : Z * Field => columnName p.2 +:+ " = $" +:+ itoa p.1)
                 (fun p : Z * Field => selectColumnOf p.2 +:+ " = $" +:+ itoa p.1) (l := nz)).
      * reflexivity.
      * apply Forall_filter_keeps. eapply Forall_impl; [exact Hcol|].
        intros p Hp. cbn beta. rewrite Hp. reflexivity.
    + rewrite <- Hnk. exact Htag.
    + rewrite <- Hnz. apply Forall_filter_keeps, Hexp.
    + rewrite Hpk. repeat constructor. exact Hx.
  - intros Hnd.
    eapply Forall_impl; [apply (nonKeyDeclared_elem (Fields model) 0)|].
    intros p Hp. apply selectColumns_in; assumption.
  - intros Hnd.
    assert (Hboth : Forall (fun p => p.2 ∈ Fields model
                                     /\ firstColumnOf p.2 = selectColumnOf p.2) nk).
    { apply Forall_and; split; [apply nonKeyDeclared_elem | exact Hfirst]. }
    eapply Forall_impl; [exact Hboth|].
    intros p (Hp & Heq). rewrite <- Heq. apply firstColumns_in; assumption.
Qed.

Lemma written_column_is_read_column_witness :
  Insert acceptAll someUser =
    ([CallExec "INSERT INTO users (name_user, email_user) VALUES ($1, $2)"
        [Some (VString "aji"); Some (VString "aji@handsome.com")]],
     Ret None).
Proof.
  assert (Hok : Forall (fun p : Z * Field =>
                          Contains (TagGet p.2) "pk" = false
                          /\ IsExported (Name p.2) = true /\ plainColumn p.2)
                  (nonKeyDeclared (Fields someUser) 0)).
  { change (nonKeyDeclared (Fields someUser) 0)
      with [(1, mkField "Name" (Some "column:name_user") (VString "aji"));
            (2, mkField "Email" (Some "column:email_user") (VString "aji@handsome.com"))].
    constructor; [|constructor; [|constructor]].
    - split; [reflexivity|]. split; [reflexivity|].
      right. exists "name_user". split; reflexivity.
    - split; [reflexivity|]. split; [reflexivity|].
      right. exists "email_user". split; reflexivity. }
  exact (proj1 (written_column_is_read_column acceptAll someUser Hok)).
Defined.
